(** * api_tester.py: a command-line HTTP request tester

    Shallow embedding of [SourceCode/api_tester.py] ([make_request] and
    [main]) together with the parts of the Python runtime, of the [json]
    module and of the [requests] library that the program relies on, and
    the verification of the behavioural claims made about it.

    The model comes first:
    - [PyStr]     Python [str] values (sequences of code points)
    - [PyFloat]   binary64 floats: conversion from decimal text, [repr]
    - [PyDict]    dicts as insertion-ordered association lists
    - [Json]      [json.loads] and [json.dumps(indent=2, ensure_ascii=False)]
    - [Py]        exception classes, [requests.Response], dict objects on
                  a heap, the state-and-exception monad with its trace of
                  prints and requests
    - [ApiTester] the program, over the limits of the interpreter,
                  [str.upper], the network and the file system as
                  parameters.

    The facts follow: the scanner of [json.loads] never runs out of fuel,
    does not see how lines end, and depends on the limits of the
    interpreter only where it meets them; what the effects of
    [make_request] and [main] amount to; dict assignment; header tokens;
    and last, the claims with sample runs. *)

From Stdlib Require Import String Ascii DecimalString.
From Stdlib Require Import ZArith NArith List Bool Lia.
From Stdlib Require Import Floats.SpecFloat.
Import ListNotations.

(* ===================================================================== *)
(** ** Python strings *)
(* ===================================================================== *)

Module PyStr.

(** A Python [str] is a sequence of Unicode code points. *)
Definition str := list N.

Open Scope N_scope.

Fixpoint bytes_of (s : string) : list N :=
  match s with
  | EmptyString => []
  | String a r => N_of_ascii a :: bytes_of r
  end.

(** Source literals are written in UTF-8; [utf8_decode] turns the bytes of
    a literal into its code points (well-formed input only). *)
Fixpoint utf8_decode (bs : list N) : str :=
  match bs with
  | [] => []
  | b0 :: r =>
    if b0 <? 128 then b0 :: utf8_decode r
    else if b0 <? 224 then
      match r with
      | b1 :: r1 => ((b0 mod 32) * 64 + b1 mod 64) :: utf8_decode r1
      | _ => []
      end
    else if b0 <? 240 then
      match r with
      | b1 :: b2 :: r2 =>
        ((b0 mod 16) * 4096 + (b1 mod 64) * 64 + b2 mod 64) :: utf8_decode r2
      | _ => []
      end
    else
      match r with
      | b1 :: b2 :: b3 :: r3 =>
        ((b0 mod 8) * 262144 + (b1 mod 64) * 4096 + (b2 mod 64) * 64 + b3 mod 64)
          :: utf8_decode r3
      | _ => []
      end
  end.

Definition lit (s : string) : str := utf8_decode (bytes_of s).

Definition str_eqb (a b : str) : bool :=
  if list_eq_dec N.eq_dec a b then true else false.

(** Truthiness of a [str]: non-empty. *)
Definition str_truthy (s : str) : bool :=
  match s with [] => false | _ => true end.

(** [str.isspace] on one code point: the code points Python treats as
    whitespace (bidirectional type WS, B or S, or category Zs). *)
Definition isspace (c : N) : bool :=
  ((9 <=? c) && (c <=? 13)) || ((28 <=? c) && (c <=? 32))
  || (c =? 133) || (c =? 160) || (c =? 5760)
  || ((8192 <=? c) && (c <=? 8202))
  || (c =? 8232) || (c =? 8233) || (c =? 8239) || (c =? 8287) || (c =? 12288).

Fixpoint lstrip (s : str) : str :=
  match s with
  | c :: r => if isspace c then lstrip r else s
  | [] => []
  end.

Definition rstrip (s : str) : str := rev (lstrip (rev s)).

(** [s.strip()] *)
Definition strip (s : str) : str := rstrip (lstrip s).

(** [s.split(sep, 1)] for a one-character separator: [None] stands for the
    one-element result [[s]] (no separator in [s]), [Some (a, b)] for the
    two-element result [[a, b]], cut at the first separator. *)
Fixpoint split1 (sep : N) (s : str) : option (str * str) :=
  match s with
  | [] => None
  | c :: r =>
    if c =? sep then Some ([], r)
    else match split1 sep r with
         | Some (a, b) => Some (c :: a, b)
         | None => None
         end
  end.

(** [str(n)] for an [int]. *)
Definition str_of_Z (z : Z) : str :=
  bytes_of (NilZero.string_of_int (Z.to_int z)).

Fixpoint startswith (p s : str) : bool :=
  match p, s with
  | [], _ => true
  | a :: p', b :: s' => (a =? b) && startswith p' s'
  | _ :: _, [] => false
  end.

Definition is_digit (c : N) : bool := (48 <=? c) && (c <=? 57).

Fixpoint span (f : N -> bool) (s : str) : str * str :=
  match s with
  | c :: r => if f c then let '(a, b) := span f r in (c :: a, b) else ([], s)
  | [] => ([], [])
  end.

(** Value of a run of ASCII digits. *)
Definition Z_of_digits (ds : str) : Z :=
  fold_left (fun acc c => (acc * 10 + Z.of_N (c - 48))%Z) ds 0%Z.

Definition join (sep : str) (parts : list str) : str :=
  match parts with
  | [] => []
  | p :: ps => p ++ concat (map (fun q => sep ++ q) ps)
  end.

(** What reading a file opened in text mode does to line endings
    (universal newlines): a carriage return, with the line feed that may
    follow it, is read as one line feed. *)
Fixpoint universal_newlines (s : str) : str :=
  match s with
  | [] => []
  | c :: r =>
    if c =? 13 then
      10 :: universal_newlines (match r with
                                | [] => r
                                | d :: r' => if d =? 10 then r' else r
                                end)
    else c :: universal_newlines r
  end.

End PyStr.
Import PyStr.

(* ===================================================================== *)
(** ** Python floats (IEEE 754 binary64) *)
(* ===================================================================== *)

Module PyFloat.

Open Scope Z_scope.

Definition prec := 53.
Definition emax := 1024.

Definition float := spec_float.

Definition float_eqb_struct (x y : float) : bool :=
  match x, y with
  | S754_zero a, S754_zero b => Bool.eqb a b
  | S754_infinity a, S754_infinity b => Bool.eqb a b
  | S754_nan, S754_nan => true
  | S754_finite a m e, S754_finite b n f => Bool.eqb a b && Pos.eqb m n && Z.eqb e f
  | _, _ => false
  end.

(** The binary64 nearest (ties to even) to the rational [p / q]. *)
Definition float_of_ratio (neg : bool) (p q : positive) : float :=
  let '(mz, ez, lz) := SFdiv_core_binary prec emax (Zpos p) 0 (Zpos q) 0 in
  binary_round_aux prec emax neg mz ez lz.

(** The binary64 nearest to [m * 10 ^ dexp], for [0 <= m]: what [float]
    returns on the decimal text of a number. *)
Definition float_of_decimal (neg : bool) (m dexp : Z) : float :=
  match m with
  | Zpos p =>
    if 0 <=? dexp then float_of_ratio neg (p * Z.to_pos (10 ^ dexp)) 1
    else float_of_ratio neg p (Z.to_pos (10 ^ (- dexp)))
  | _ => S754_zero neg
  end.

(** [float(n)] for an [int] in range. *)
Definition float_of_Z (z : Z) : float := binary_normalize prec emax z 0 false.

(** [x / y] on floats; [None] is [ZeroDivisionError]. *)
Definition truediv (x y : float) : option float :=
  match y with
  | S754_zero _ => None
  | _ => Some (SFdiv prec emax x y)
  end.

(** Whether [float(n)] returns (it raises [OverflowError] otherwise). *)
Definition int_fits_float (n : Z) : bool :=
  match float_of_Z n with
  | S754_infinity _ => false
  | _ => true
  end.

(** Truthiness: [x != 0.0]. *)
Definition float_truthy (x : float) : bool :=
  match x with S754_zero _ => false | _ => true end.

(** *** [repr] : the shortest decimal text that reads back as the same
    float (the closest to the float among the shortest). *)

Fixpoint ilog10_aux (fuel : nat) (n : Z) : Z :=
  match fuel with
  | O => 0
  | S k => if n <? 10 then 0 else 1 + ilog10_aux k (n / 10)
  end.

(** [floor (log10 n)] for [1 <= n]. *)
Definition ilog10 (n : Z) : Z := ilog10_aux (S (Z.to_nat (Z.log2 n))) n.

(** [floor (log10 (p / q))] *)
Definition dec_exponent (p q : Z) : Z :=
  if q <=? p then ilog10 (p / q)
  else - (ilog10 ((q + p - 1) / p - 1) + 1).

(** Digits and decimal point position ([0.d1d2... * 10 ^ decpt]) of the
    candidate [c * 10 ^ (- s)], trailing zeros removed. *)
Definition strip_zeros (ds : str) : str :=
  rev (snd (span (fun c => N.eqb c 48) (rev ds))).

Definition candidate (c s : Z) : str * Z :=
  let ds := str_of_Z c in
  (strip_zeros ds, Z.of_nat (length ds) - s).

(** Try [n] significant digits. *)
Definition try_digits (neg : bool) (x : float) (p q t n : Z) : option (str * Z) :=
  let s := n - 1 - t in
  let num := if 0 <=? s then p * 10 ^ s else p in
  let den := if 0 <=? s then q else q * 10 ^ (- s) in
  let lo := num / den in
  let r := num mod den in
  let back c := float_eqb_struct (float_of_decimal neg c (- s)) x in
  let ok_lo := back lo in
  let ok_hi := negb (r =? 0) && back (lo + 1) in
  let pick_hi :=
    match 2 * r ?= den with
    | Lt => false
    | Gt => true
    | Eq => Z.odd lo
    end in
  if ok_lo && ok_hi then Some (candidate (if pick_hi then lo + 1 else lo) s)
  else if ok_lo then Some (candidate lo s)
  else if ok_hi then Some (candidate (lo + 1) s)
  else None.

(** The first number of digits, from [n] on, that reads back as [x];
    seventeen digits always do. *)
Fixpoint shortest_aux (fuel : nat) (neg : bool) (x : float) (p q t n : Z) : str * Z :=
  match fuel with
  | O => ([], 0)
  | S k =>
    match try_digits neg x p q t n with
    | Some r => r
    | None => shortest_aux k neg x p q t (n + 1)
    end
  end.

Definition shortest_digits (neg : bool) (m : positive) (e : Z) : str * Z :=
  let p := if 0 <=? e then Zpos m * 2 ^ e else Zpos m in
  let q := if 0 <=? e then 1 else 2 ^ (- e) in
  shortest_aux 17 neg (S754_finite neg m e) p q (dec_exponent p q) 1.

Definition zeros (n : Z) : str := repeat 48%N (Z.to_nat n).

(** Layout of [repr]: exponent form when [decpt <= -4] or [16 < decpt],
    else positional with at least one digit after the point. *)
Definition layout (ds : str) (decpt : Z) : str :=
  let n := Z.of_nat (length ds) in
  if (decpt <=? -4) || (16 <? decpt) then
    let ex := decpt - 1 in
    let exs := str_of_Z (Z.abs ex) in
    firstn 1 ds
      ++ (if 1 <? n then lit "." ++ skipn 1 ds else [])
      ++ lit "e" ++ (if ex <? 0 then lit "-" else lit "+")
      ++ (if Z.abs ex <? 10 then lit "0" else []) ++ exs
  else if decpt <=? 0 then lit "0." ++ zeros (- decpt) ++ ds
  else if decpt <? n then
    firstn (Z.to_nat decpt) ds ++ lit "." ++ skipn (Z.to_nat decpt) ds
  else ds ++ zeros (decpt - n) ++ lit ".0".

Definition sign_str (neg : bool) : str := if neg then lit "-" else [].

(** [repr(x)], also what an f-string field shows for a float. *)
Definition float_repr (x : float) : str :=
  match x with
  | S754_nan => lit "nan"
  | S754_infinity neg => sign_str neg ++ lit "inf"
  | S754_zero neg => sign_str neg ++ lit "0.0"
  | S754_finite neg m e =>
    let '(ds, decpt) := shortest_digits neg m e in
    sign_str neg ++ layout ds decpt
  end.

End PyFloat.
Import PyFloat.

(* ===================================================================== *)
(** ** Python dicts: insertion-ordered association lists *)
(* ===================================================================== *)

Module PyDict.

Section Dict.
Variable V : Type.

(** Keys are unique; the order is the order of first insertion. *)
Definition dict := list (str * V).

(** [d[k] = v]: an existing key keeps its position and takes the new
    value; a new key goes last. *)
Fixpoint dict_set (k : str) (v : V) (d : dict) : dict :=
  match d with
  | [] => [(k, v)]
  | (k', v') :: r =>
    if str_eqb k' k then (k', v) :: r else (k', v') :: dict_set k v r
  end.

(** [d.get(k)] *)
Fixpoint dict_get (k : str) (d : dict) : option V :=
  match d with
  | [] => None
  | (k', v') :: r => if str_eqb k' k then Some v' else dict_get k r
  end.

Definition dict_keys (d : dict) : list str := map fst d.

(** [dict(pairs)]: the pairs inserted one after the other. *)
Definition dict_of_pairs (ps : list (str * V)) : dict :=
  fold_left (fun d kv => dict_set (fst kv) (snd kv) d) ps [].

Definition dict_truthy (d : dict) : bool :=
  match d with [] => false | _ => true end.

End Dict.

Arguments dict_set {V} k v d.
Arguments dict_get {V} k d.
Arguments dict_keys {V} d.
Arguments dict_of_pairs {V} ps.
Arguments dict_truthy {V} d.

End PyDict.
Import PyDict.

(* ===================================================================== *)
(** ** The [json] module *)
(* ===================================================================== *)

Module Json.

Open Scope N_scope.

(** The Python values [json.loads] produces. [JNull] is [None]. *)
#[warnings="-register-all"]
Inductive value :=
| JNull
| JBool (b : bool)
| JInt (z : Z)
| JFloat (f : float)
| JStr (s : str)
| JList (l : list value)
| JDict (d : list (str * value)).

(** Truthiness ([if v:]). *)
Definition truthy (v : value) : bool :=
  match v with
  | JNull => false
  | JBool b => b
  | JInt z => negb (Z.eqb z 0)
  | JFloat f => float_truthy f
  | JStr s => str_truthy s
  | JList l => match l with [] => false | _ => true end
  | JDict d => match d with [] => false | _ => true end
  end.

(** *** [json.dumps(v, indent=2, ensure_ascii=False)] *)

Definition hex_digit (n : N) : N := if n <? 10 then 48 + n else 87 + n.

(** The encoder's escape table; everything else, non-ASCII included, is
    left as it is. *)
Definition escape_char (c : N) : str :=
  if c =? 92 then [92; 92]
  else if c =? 34 then [92; 34]
  else if c =? 8 then [92; 98]
  else if c =? 12 then [92; 102]
  else if c =? 10 then [92; 110]
  else if c =? 13 then [92; 114]
  else if c =? 9 then [92; 116]
  else if c <? 32 then [92; 117; 48; 48; hex_digit (c / 16); hex_digit (c mod 16)]
  else [c].

Definition encode_str (s : str) : str := [34] ++ flat_map escape_char s ++ [34].

Definition floatstr (f : float) : str :=
  match f with
  | S754_nan => lit "NaN"
  | S754_infinity false => lit "Infinity"
  | S754_infinity true => lit "-Infinity"
  | _ => float_repr f
  end.

Definition indent : nat := 2.

Definition newline_indent (level : nat) : str := 10 :: repeat 32 (indent * level).

Fixpoint encode (level : nat) (v : value) : str :=
  match v with
  | JNull => lit "null"
  | JBool true => lit "true"
  | JBool false => lit "false"
  | JInt z => str_of_Z z
  | JFloat f => floatstr f
  | JStr s => encode_str s
  | JList [] => lit "[]"
  | JList (x :: xs) =>
    lit "[" ++ newline_indent (S level) ++ encode (S level) x
      ++ (fix items (l : list value) : str :=
            match l with
            | [] => []
            | y :: r =>
              lit "," ++ newline_indent (S level) ++ encode (S level) y ++ items r
            end) xs
      ++ newline_indent level ++ lit "]"
  | JDict [] => lit "{}"
  | JDict ((k, x) :: kvs) =>
    lit "{" ++ newline_indent (S level) ++ encode_str k ++ lit ": " ++ encode (S level) x
      ++ (fix items (l : list (str * value)) : str :=
            match l with
            | [] => []
            | (k', y) :: r =>
              lit "," ++ newline_indent (S level) ++ encode_str k' ++ lit ": "
                ++ encode (S level) y ++ items r
            end) kvs
      ++ newline_indent level ++ lit "}"
  end.

Definition dumps (v : value) : str := encode 0 v.

(** *** [json.loads(s)] for a [str], after the C scanner *)

(** The limits of the interpreter that the scanner can meet. The program
    sets none of them, so they are what the interpreter starts with, and
    they depend on the interpreter, its version and its settings.
    - [max_str_digits] is [sys.get_int_max_str_digits()], with [0] for no
      limit (4300 unless configured otherwise; interpreters older than the
      limit have none).
    - [recursion_budget] is the number of nested arrays and objects the
      scanner may enter before the interpreter raises [RecursionError].
    - Close to that limit, what the scanner calls may fail for lack of
      room: [error_refusal d] is the [str] of the [RecursionError] raised
      in place of a [JSONDecodeError] that the scanner builds while [d]
      more levels could be entered, if any; [constant_refusal d] is the
      same for the call of [parse_constant] on [NaN], [Infinity] and
      [-Infinity]. *)
Record limits := mkLimits {
  max_str_digits : nat;
  recursion_budget : nat;
  error_refusal : nat -> option str;
  constant_refusal : nat -> option str
}.

Inductive container := Array | Object.

(** The errors of the scanner that are no [JSONDecodeError]: the
    [ValueError] of [int] for a literal of more than [limit] digits; the
    [RecursionError] met on entering a container; and the
    [RecursionError], with its [str], met in a call for lack of room. *)
Inductive refusal :=
| TooManyDigits (limit digits : nat)
| TooDeep (c : container)
| NoRoom (msg : str).

(** How a scan ends: with a value and the text that follows it, with no
    JSON value ([StopIteration], which [json.loads] turns into
    [JSONDecodeError]), or with another error. *)
Inductive scanned :=
| Scanned (v : value) (rest : str)
| NoJson
| Refused (e : refusal).

(** How [json.loads] ends. *)
Inductive decoded :=
| Decoded (v : value)
| DecodeError
| Refusal (e : refusal).

Definition is_ws (c : N) : bool := (c =? 32) || (c =? 9) || (c =? 10) || (c =? 13).

Fixpoint skip_ws (s : str) : str :=
  match s with
  | c :: r => if is_ws c then skip_ws r else s
  | [] => []
  end.

Definition hex_val (c : N) : option N :=
  if is_digit c then Some (c - 48)
  else if (97 <=? c) && (c <=? 102) then Some (c - 87)
  else if (65 <=? c) && (c <=? 70) then Some (c - 55)
  else None.

Definition hex4 (s : str) : option (N * str) :=
  match s with
  | a :: b :: c :: d :: r =>
    match hex_val a, hex_val b, hex_val c, hex_val d with
    | Some a, Some b, Some c, Some d => Some (((a * 16 + b) * 16 + c) * 16 + d, r)
    | _, _, _, _ => None
    end
  | _ => None
  end.

Definition is_high_surrogate (c : N) : bool := (55296 <=? c) && (c <=? 56319).
Definition is_low_surrogate (c : N) : bool := (56320 <=? c) && (c <=? 57343).
Definition join_surrogates (hi lo : N) : N :=
  65536 + (hi - 55296) * 1024 + (lo - 56320).

Definition unescape (c : N) : option N :=
  if (c =? 34) || (c =? 92) || (c =? 47) then Some c
  else if c =? 98 then Some 8
  else if c =? 102 then Some 12
  else if c =? 110 then Some 10
  else if c =? 114 then Some 13
  else if c =? 116 then Some 9
  else None.

(** [s] without its prefix [p], if it starts with [p]. *)
Fixpoint strip_prefix (p s : str) : option str :=
  match p with
  | [] => Some s
  | a :: p' =>
    match s with
    | b :: s' => if a =? b then strip_prefix p' s' else None
    | [] => None
    end
  end.

(** The text after an opening quote, in strict mode: the decoded string
    and what follows the closing quote. *)
Fixpoint scanstring (fuel : nat) (s acc : str) : option (str * str) :=
  match fuel with
  | O => None
  | S k =>
    match s with
    | [] => None
    | c :: r =>
      if c =? 34 then Some (rev acc, r)
      else if c =? 92 then
        match r with
        | [] => None
        | e :: r1 =>
          if e =? 117 then
            match hex4 r1 with
            | None => None
            | Some (u, r2) =>
              if is_high_surrogate u then
                match strip_prefix [92; 117] r2 with
                | Some r3 =>
                  match hex4 r3 with
                  | None => None
                  | Some (u2, r4) =>
                    if is_low_surrogate u2
                    then scanstring k r4 (join_surrogates u u2 :: acc)
                    else scanstring k r2 (u :: acc)
                  end
                | None => scanstring k r2 (u :: acc)
                end
              else scanstring k r2 (u :: acc)
            end
          else
            match unescape e with
            | Some ch => scanstring k r1 (ch :: acc)
            | None => None
            end
        end
      else if c <=? 31 then None
      else scanstring k r (c :: acc)
    end
  end.

(** An optional sign. *)
Definition scan_sign (allow_plus : bool) (s : str) : bool * str :=
  match s with
  | c :: r =>
    if c =? 45 then (true, r)
    else if allow_plus && (c =? 43) then (false, r)
    else (false, s)
  | [] => (false, s)
  end.

(** The integer part: a single zero, or a non-zero digit and digits. *)
Definition scan_int_part (s : str) : option (str * str) :=
  match s with
  | c :: r =>
    if (49 <=? c) && (c <=? 57) then
      let '(ds, rest) := span is_digit r in Some (c :: ds, rest)
    else if c =? 48 then Some ([48], r)
    else None
  | [] => None
  end.

(** The fraction, if a point and a digit follow: its digits. *)
Definition scan_fraction (s : str) : str * str :=
  match s with
  | p :: d :: r =>
    if (p =? 46) && is_digit d then
      let '(ds, rest) := span is_digit r in (d :: ds, rest)
    else ([], s)
  | _ => ([], s)
  end.

(** The exponent, if [e] or [E], an optional sign and a digit follow. *)
Definition scan_exponent (s : str) : option Z * str :=
  match s with
  | e :: r =>
    if (e =? 101) || (e =? 69) then
      let '(eneg, r1) := scan_sign true r in
      let '(ds, rest) := span is_digit r1 in
      match ds with
      | [] => (None, s)
      | _ :: _ => (Some (if eneg then (- Z_of_digits ds)%Z else Z_of_digits ds), rest)
      end
    else (None, s)
  | [] => (None, s)
  end.

(** Whether [int] refuses a literal of [n] digits (the sign is not
    counted). *)
Definition exceeds_digits (lim : limits) (n : nat) : bool :=
  (0 <? max_str_digits lim)%nat && (max_str_digits lim <? n)%nat.

(** Numbers: an optional minus sign; an integer part; an optional
    fraction; an optional exponent. The result is an [int] when there is
    neither fraction nor exponent, else a [float]; [int] refuses a literal
    with too many digits, [float] refuses none. *)
Definition match_number (lim : limits) (s : str) : scanned :=
  let '(neg, s1) := scan_sign false s in
  match scan_int_part s1 with
  | None => NoJson
  | Some (ids, s2) =>
    let '(frac, s3) := scan_fraction s2 in
    let '(ex, s4) := scan_exponent s3 in
    match frac, ex with
    | [], None =>
      if exceeds_digits lim (length ids)
      then Refused (TooManyDigits (max_str_digits lim) (length ids))
      else Scanned (JInt (if neg then (- Z_of_digits ids)%Z else Z_of_digits ids)) s4
    | _, _ =>
      let e10 := match ex with Some e => e | None => 0%Z end in
      Scanned (JFloat (float_of_decimal neg (Z_of_digits (ids ++ frac))
                         (e10 - Z.of_nat (length frac)))) s4
    end
  end.

(** The named constants, in the order the scanner tries them. *)
Definition constants : list (str * value) :=
  [(lit "null", JNull); (lit "true", JBool true); (lit "false", JBool false);
   (lit "NaN", JFloat S754_nan); (lit "Infinity", JFloat (S754_infinity false));
   (lit "-Infinity", JFloat (S754_infinity true))].

Fixpoint scan_constant (table : list (str * value)) (s : str) : option (value * str) :=
  match table with
  | [] => None
  | (name, v) :: table' =>
    match strip_prefix name s with
    | Some rest => Some (v, rest)
    | None => scan_constant table' s
    end
  end.

(** An error that the scanner raises itself ([raise_errmsg]), with
    [depth] levels left: the [JSONDecodeError] is built by a call, which
    can fail. The end of the text and a character that starts no value are
    reported otherwise ([StopIteration]), without such a call. *)
Definition raise_errmsg (lim : limits) (depth : nat) : scanned :=
  match error_refusal lim depth with
  | Some msg => Refused (NoRoom msg)
  | None => NoJson
  end.

(** A named constant that was read: [null], [true] and [false] are
    returned as they are; the three floats are the result of a call of
    [parse_constant], which can fail. *)
Definition constant (lim : limits) (depth : nat) (v : value) (rest : str) : scanned :=
  match v with
  | JFloat _ =>
    match constant_refusal lim depth with
    | Some msg => Refused (NoRoom msg)
    | None => Scanned v rest
    end
  | _ => Scanned v rest
  end.

(** One value. [fuel] bounds the calls, and [depth] is what is left of
    the recursion budget: entering an array or an object takes one unit,
    and is refused when none is left, before anything in it is read. *)
Fixpoint scan_once (lim : limits) (fuel depth : nat) (s : str) : scanned :=
  match fuel with
  | O => NoJson
  | S k =>
    match s with
    | [] => NoJson
    | c :: r =>
      if c =? 34 then
        match scanstring (S (length r)) r [] with
        | Some (x, rest) => Scanned (JStr x) rest
        | None => raise_errmsg lim depth
        end
      else if c =? 123 then
        match depth with
        | O => Refused (TooDeep Object)
        | S d =>
          match strip_prefix [125] (skip_ws r) with
          | Some rest => Scanned (JDict []) rest
          | None => parse_object lim k d (skip_ws r) []
          end
        end
      else if c =? 91 then
        match depth with
        | O => Refused (TooDeep Array)
        | S d =>
          match strip_prefix [93] (skip_ws r) with
          | Some rest => Scanned (JList []) rest
          | None => parse_array lim k d (skip_ws r) []
          end
        end
      else
        match scan_constant constants s with
        | Some (v, rest) => constant lim depth v rest
        | None => match_number lim s
        end
    end
  end

(** The items of a non-empty array, up to and including the closing
    bracket. *)
with parse_array (lim : limits) (fuel depth : nat) (s : str) (acc : list value)
    : scanned :=
  match fuel with
  | O => NoJson
  | S k =>
    match scan_once lim k depth s with
    | NoJson => NoJson
    | Refused e => Refused e
    | Scanned v r =>
      match strip_prefix [93] (skip_ws r) with
      | Some rest => Scanned (JList (rev (v :: acc))) rest
      | None =>
        match strip_prefix [44] (skip_ws r) with
        | Some rest => parse_array lim k depth (skip_ws rest) (v :: acc)
        | None => raise_errmsg lim depth
        end
      end
    end
  end

(** The members of a non-empty object, up to and including the closing
    brace; a repeated key keeps its first position and its last value. *)
with parse_object (lim : limits) (fuel depth : nat) (s : str) (acc : list (str * value))
    : scanned :=
  match fuel with
  | O => NoJson
  | S k =>
    match strip_prefix [34] s with
    | None => raise_errmsg lim depth
    | Some r =>
      match scanstring (S (length r)) r [] with
      | None => raise_errmsg lim depth
      | Some (key, r1) =>
        match strip_prefix [58] (skip_ws r1) with
        | None => raise_errmsg lim depth
        | Some r2 =>
          match scan_once lim k depth (skip_ws r2) with
          | NoJson => NoJson
          | Refused e => Refused e
          | Scanned v r3 =>
            match strip_prefix [125] (skip_ws r3) with
            | Some rest => Scanned (JDict (dict_set key v acc)) rest
            | None =>
              match strip_prefix [44] (skip_ws r3) with
              | Some rest => parse_object lim k depth (skip_ws rest) (dict_set key v acc)
              | None => raise_errmsg lim depth
              end
            end
          end
        end
      end
    end
  end.

(** [json.loads(s)] under the limits [lim]: the value, a
    [json.JSONDecodeError], or the error of the interpreter that the
    scanner met first. The errors that [json.loads] raises outside the
    scanner (a byte order mark, no value, text after the value) are raised
    where the scanner was called from. *)
Definition loads (lim : limits) (s : str) : decoded :=
  match strip_prefix [65279] s with
  | Some _ => DecodeError
  | None =>
    match scan_once lim (S (2 * length s)) (recursion_budget lim) (skip_ws s) with
    | Scanned v r => match skip_ws r with [] => Decoded v | _ :: _ => DecodeError end
    | NoJson => DecodeError
    | Refused e => Refusal e
    end
  end.

End Json.
Import Json.

(* ===================================================================== *)
(** ** The Python runtime: exceptions, responses, heap objects, effects *)
(* ===================================================================== *)

Module Py.

Open Scope Z_scope.

(** *** Exception classes *)

Inductive exc_class :=
| BaseException | SystemExit | KeyboardInterrupt | Exception
| ArithmeticError | OverflowError | ZeroDivisionError
| AttributeError | TypeError | RuntimeError | RecursionError
| ValueError | JSONDecodeError | UnicodeDecodeError
| OSError | FileNotFoundError | PermissionError | IsADirectoryError
| RequestException | HTTPError | ConnectionError | Timeout
| ConnectTimeout | ReadTimeout | TooManyRedirects
| MissingSchema | InvalidSchema | InvalidURL
| InvalidJSONError | RequestsJSONDecodeError.

Scheme Equality for exc_class.

(** The direct base classes, as the interpreter, [json] and
    [requests.exceptions] declare them. *)
Definition bases (c : exc_class) : list exc_class :=
  match c with
  | BaseException => []
  | SystemExit | KeyboardInterrupt | Exception => [BaseException]
  | ArithmeticError | AttributeError | TypeError | ValueError | OSError
  | RuntimeError => [Exception]
  | OverflowError | ZeroDivisionError => [ArithmeticError]
  | RecursionError => [RuntimeError]
  | JSONDecodeError | UnicodeDecodeError => [ValueError]
  | FileNotFoundError | PermissionError | IsADirectoryError => [OSError]
  | RequestException => [OSError]
  | HTTPError | ConnectionError | Timeout | TooManyRedirects => [RequestException]
  | ConnectTimeout => [ConnectionError; Timeout]
  | ReadTimeout => [Timeout]
  | MissingSchema | InvalidSchema | InvalidURL => [RequestException; ValueError]
  | InvalidJSONError => [RequestException]
  | RequestsJSONDecodeError => [InvalidJSONError; JSONDecodeError]
  end.

Fixpoint issubclass_aux (fuel : nat) (c d : exc_class) : bool :=
  exc_class_beq c d ||
  match fuel with
  | O => false
  | S k => existsb (fun b => issubclass_aux k b d) (bases c)
  end.

Definition issubclass (c d : exc_class) : bool := issubclass_aux 6 c d.

(** *** [requests.Response] *)

Record Response := mkResponse {
  status_code : Z;
  reason : str;
  resp_url : str;
  resp_headers : list (str * str);   (* [response.headers.items()] *)
  text : str;                        (* [response.text] *)
  raw_version : Z                    (* [response.raw.version] *)
}.

(** An exception instance: its class, [str(e)], [e.response] (for the
    exceptions of [requests]) and [e.code] (for [SystemExit]). *)
Record exc := mkExc {
  exc_cls : exc_class;
  exc_msg : str;
  exc_response : option Response;
  exc_code : Z
}.

Definition isinstance (e : exc) (c : exc_class) : bool := issubclass (exc_cls e) c.

Definition new_exc (c : exc_class) (msg : str) : exc := mkExc c msg None 0.

(** [Response.raise_for_status]: [None] when it returns, the [HTTPError]
    it raises otherwise. *)
Definition http_error_msg (r : Response) : str :=
  if (400 <=? status_code r) && (status_code r <? 500) then
    str_of_Z (status_code r) ++ lit " Client Error: " ++ reason r
      ++ lit " for url: " ++ resp_url r
  else if (500 <=? status_code r) && (status_code r <? 600) then
    str_of_Z (status_code r) ++ lit " Server Error: " ++ reason r
      ++ lit " for url: " ++ resp_url r
  else [].

Definition raise_for_status (r : Response) : option exc :=
  if str_truthy (http_error_msg r)
  then Some (mkExc HTTPError (http_error_msg r) (Some r) 0)
  else None.

(** [Response.ok], which is also [Response.__bool__]: whether
    [raise_for_status] returns. *)
Definition ok (r : Response) : bool :=
  match raise_for_status r with
  | Some _ => false
  | None => true
  end.

Definition Response_bool (r : Response) : bool := ok r.

(** *** What the program does to the outside *)

(** The arguments of one [requests.request] call; [req_headers] is the
    content of the mapping passed as [headers] at the time of the call. *)
Record request := mkRequest {
  req_method : str;
  req_url : str;
  req_headers : option (dict str);
  req_data : option str;
  req_json : value;
  req_timeout : Z
}.

Inductive event :=
| Print (line : str)       (* one [print] call *)
| Request (r : request).   (* one [requests.request] call *)

(** *** Heap of dict objects and the effect monad *)

Definition loc := nat.

Record world := mkWorld {
  heap : list (dict str);
  trace : list event       (* oldest first *)
}.

Inductive result (A : Type) :=
| Ret (a : A)
| Raise (e : exc).
Arguments Ret {A} a.
Arguments Raise {A} e.

Definition M (A : Type) := world -> result A * world.

Definition ret {A} (a : A) : M A := fun w => (Ret a, w).

Definition bind {A B} (c : M A) (k : A -> M B) : M B := fun w =>
  match c w with
  | (Ret a, w') => k a w'
  | (Raise e, w') => (Raise e, w')
  end.

Definition raise {A} (e : exc) : M A := fun w => (Raise e, w).

(** [try: body except ...:] where [handler e] is the body of the first
    clause matching [e], if any. *)
Definition try_except {A} (body : M A) (handler : exc -> option (M A)) : M A := fun w =>
  match body w with
  | (Ret a, w') => (Ret a, w')
  | (Raise e, w') =>
    match handler e with
    | Some h => h w'
    | None => (Raise e, w')
    end
  end.

Definition emit (ev : event) : M unit := fun w =>
  (Ret tt, mkWorld (heap w) (trace w ++ [ev])).

Definition print (s : str) : M unit := emit (Print s).

(** A new dict object with the given content. *)
Definition new_dict (d : dict str) : M loc := fun w =>
  (Ret (length (heap w)), mkWorld (heap w ++ [d]) (trace w)).

Definition load (l : loc) : M (dict str) := fun w => (Ret (nth l (heap w) []), w).

Fixpoint update (l : loc) (d : dict str) (h : list (dict str)) : list (dict str) :=
  match h, l with
  | [], _ => []
  | _ :: r, O => d :: r
  | x :: r, S l' => x :: update l' d r
  end.

(** [o[k] = v] on the dict object at [l]. *)
Definition setitem (l : loc) (k v : str) : M unit := fun w =>
  (Ret tt, mkWorld (update l (dict_set k v (nth l (heap w) [])) (heap w)) (trace w)).

(** [o.copy()] *)
Definition copy (l : loc) : M loc := bind (load l) new_dict.

Fixpoint for_each {A} (xs : list A) (body : A -> M unit) : M unit :=
  match xs with
  | [] => ret tt
  | x :: r => bind (body x) (fun _ => for_each r body)
  end.

Definition opt_truthy (s : option str) : bool :=
  match s with
  | Some t => str_truthy t
  | None => false
  end.

(** What a process whose main program ended with [r] exits with. *)
Definition exit_status (r : result unit) : Z :=
  match r with
  | Ret _ => 0
  | Raise e => if isinstance e SystemExit then exc_code e else 1
  end.

End Py.
Import Py.

Declare Scope py_scope.
Delimit Scope py_scope with py.
Notation "x <- c ;; k" := (bind c (fun x => k))
  (at level 61, c at next level, right associativity) : py_scope.
Notation "c ;; k" := (bind c (fun _ => k))
  (at level 61, right associativity) : py_scope.

(* ===================================================================== *)
(** ** The program *)
(* ===================================================================== *)

Module ApiTester.

Open Scope py_scope.
Open Scope Z_scope.

(** The errors that [open] and [read] raise on the [-f] file. *)
Inductive io_error := NoSuchFile | PermissionDenied | IsADirectory | NotUtf8.

(** What the [-f] file holds: the characters its bytes decode to as
    UTF-8, or the error met on the way. *)
Inductive read_result :=
| FileText (t : str)
| FileError (e : io_error).

Definition io_error_class (e : io_error) : exc_class :=
  match e with
  | NoSuchFile => FileNotFoundError
  | PermissionDenied => PermissionError
  | IsADirectory => IsADirectoryError
  | NotUtf8 => UnicodeDecodeError
  end.

(** The [argparse] namespace. *)
Record Args := mkArgs {
  method : str;
  url : str;
  header : option (list str);
  data : option str;
  json_data : option str;
  file : option str;
  verbose : bool
}.

(** The texts the program prints. *)
Definition nl : str := [10%N].

Definition banner_outgoing : str := Eval vm_compute in
  lit "---------- 🚀 发送请求 (Outgoing Request) ----------" ++ nl.
Definition headers_title : str := Eval vm_compute in lit "> Headers:".
Definition form_body_title : str := Eval vm_compute in
  nl ++ lit "> Body (Form Data/Raw Text):".
Definition json_body_title : str := Eval vm_compute in nl ++ lit "> Body (JSON):".
Definition separator : str := Eval vm_compute in
  nl ++ lit "------------------------------------------------------" ++ nl.
Definition banner_response : str := Eval vm_compute in
  lit "---------- ✅ 得到响应 (Server Response) ----------" ++ nl.
Definition response_headers_title : str := Eval vm_compute in
  nl ++ lit "📋 响应头 (Headers):".
Definition response_body_title : str := Eval vm_compute in
  nl ++ lit "📦 响应体 (Body):".
Definition no_body : str := Eval vm_compute in lit "(无响应体)".
Definition http_error_banner : str := Eval vm_compute in lit "❌ HTTP 错误: ".
Definition response_content_label : str := Eval vm_compute in lit "   响应内容: ".
Definition network_error_banner : str := Eval vm_compute in
  lit "❌ 请求失败，请检查URL或网络连接: ".
Definition unknown_error_banner : str := Eval vm_compute in lit "❌ 发生未知错误: ".
Definition invalid_json_message : str := Eval vm_compute in
  lit "❌ 错误: --json_data 提供的内容不是有效的JSON格式。".

Definition request_line (METHOD url : str) : str :=
  lit "> " ++ METHOD ++ lit " " ++ url ++ lit " HTTP/1.1".
Definition preview_header_line (kv : str * str) : str :=
  lit ">   " ++ fst kv ++ lit ": " ++ snd kv.
Definition sending_line (METHOD url : str) : str :=
  lit "🚀 正在发送 " ++ METHOD ++ lit " 请求到: " ++ url ++ lit " ...".
Definition status_line (version : str) (r : Response) : str :=
  lit "🔗 状态: HTTP/" ++ version ++ lit " " ++ str_of_Z (status_code r)
    ++ lit " " ++ reason r.
Definition response_header_line (kv : str * str) : str :=
  lit "  " ++ fst kv ++ lit ": " ++ snd kv.
Definition header_warning (header : str) : str :=
  lit "⚠️ 无效的头格式: '" ++ header ++ lit "'。已忽略。".
Definition file_not_found_message (path : str) : str :=
  lit "❌ 错误: 文件未找到 '" ++ path ++ lit "'。".
Definition invalid_file_message (path : str) : str :=
  lit "❌ 错误: 文件 '" ++ path ++ lit "' 的内容不是有效的JSON格式。".

(** The exception a refusal of the scanner is, with its [str]. *)
Definition refusal_class (e : refusal) : exc_class :=
  match e with
  | TooManyDigits _ _ => ValueError
  | TooDeep _ | NoRoom _ => RecursionError
  end.

Definition refusal_msg (e : refusal) : str :=
  match e with
  | TooManyDigits limit digits =>
    lit "Exceeds the limit (" ++ str_of_Z (Z.of_nat limit)
      ++ lit " digits) for integer string conversion: value has "
      ++ str_of_Z (Z.of_nat digits)
      ++ lit " digits; use sys.set_int_max_str_digits() to increase the limit"
  | TooDeep Array =>
    lit "maximum recursion depth exceeded while decoding a JSON array from a unicode string"
  | TooDeep Object =>
    lit "maximum recursion depth exceeded while decoding a JSON object from a unicode string"
  | NoRoom msg => msg
  end.

Definition refusal_exc (e : refusal) : exc := new_exc (refusal_class e) (refusal_msg e).

(** [json.loads] as a computation. The text of a [JSONDecodeError] is
    never shown by this program and is left empty. *)
Definition json_loads (lim : limits) (s : str) : M value :=
  match loads lim s with
  | Decoded v => ret v
  | DecodeError => raise (new_exc JSONDecodeError [])
  | Refusal e => raise (refusal_exc e)
  end.

(** [response.json()]: the body text parsed as JSON; [requests] wraps a
    [JSONDecodeError] in its own and lets any other error through. *)
Definition Response_json (lim : limits) (r : Response) : M value :=
  match loads lim (text r) with
  | Decoded v => ret v
  | DecodeError => raise (new_exc RequestsJSONDecodeError [])
  | Refusal e => raise (refusal_exc e)
  end.

(** [n / 10.0] for an [int] [n]. *)
Definition int_div_10 (n : Z) : M float :=
  match float_of_Z n with
  | S754_infinity _ => raise (new_exc OverflowError (lit "int too large to convert to float"))
  | x =>
    match truediv x (float_of_Z 10) with
    | Some q => ret q
    | None => raise (new_exc ZeroDivisionError (lit "float division by zero"))
    end
  end.

(** [sys.exit(code)] *)
Definition sys_exit {A} (code : Z) : M A := raise (mkExc SystemExit [] None code).

Section Program.

(** The outside world: the limits of the interpreter, taken to be the
    same at each call of the scanner; [str.upper] (the Unicode case
    tables); the network behind [requests.request]; and the file system
    behind [open]. *)
Variable lim : limits.
Variable upper : str -> str.
Variable requests_request : request -> Response + exc.
Variable open_read : str -> read_result.

(** [requests.request(method=..., url=..., headers=..., data=..., json=...,
    timeout=...)], [headers] being a reference to a dict object or [None]. *)
Definition call_requests (method url : str) (headers : option loc)
    (data : option str) (json : value) (timeout : Z) : M Response :=
  hs <- match headers with
        | Some l => d <- load l ;; ret (Some d)
        | None => ret None
        end ;;
  let r := mkRequest method url hs data json timeout in
  emit (Request r) ;;
  match requests_request r with
  | inl response => ret response
  | inr e => raise e
  end.

(** [if headers] for a dict reference or [None]. *)
Definition headers_truthy (headers : option loc) : M bool :=
  match headers with
  | Some l => d <- load l ;; ret (dict_truthy d)
  | None => ret false
  end.

(** [headers.copy() if headers else {}] *)
Definition copy_or_empty (headers : option loc) : M loc :=
  t <- headers_truthy headers ;;
  match headers with
  | Some l => if t then copy l else new_dict []
  | None => new_dict []
  end.

(** Lines 26-49: the preview, or the one-line notice. *)
Definition preview (method url : str) (headers : option loc) (data : option str)
    (json_data : value) (verbose : bool) : M unit :=
  if verbose then
    print banner_outgoing ;;
    print (request_line (upper method) url) ;;
    final_headers <- copy_or_empty headers ;;
    (if truthy json_data
     then setitem final_headers (lit "Content-Type") (lit "application/json")
     else ret tt) ;;
    print headers_title ;;
    items <- load final_headers ;;
    for_each items (fun kv => print (preview_header_line kv)) ;;
    (if opt_truthy data then
       print form_body_title ;;
       print (match data with Some d => d | None => [] end)
     else if truthy json_data then
       print json_body_title ;;
       print (dumps json_data)
     else ret tt) ;;
    print separator
  else
    print (sending_line (upper method) url).

(** Lines 76-85: the body block of a successful response. *)
Definition render_body (response : Response) : M unit :=
  print response_body_title ;;
  try_except
    (response_json <- Response_json lim response ;;
     print (dumps response_json))
    (fun e =>
       if isinstance e JSONDecodeError then
         Some (if str_truthy (text response)
               then print (text response)
               else print no_body)
       else None).

(** Lines 55-85: the body of the [try]. *)
Definition send_and_render (method url : str) (headers : option loc)
    (data : option str) (json_data : value) : M unit :=
  response <- call_requests method url headers data json_data 10 ;;
  match raise_for_status response with
  | Some e => raise e
  | None => ret tt
  end ;;
  print banner_response ;;
  version <- int_div_10 (raw_version response) ;;
  print (status_line (float_repr version) response) ;;
  print response_headers_title ;;
  for_each (resp_headers response) (fun kv => print (response_header_line kv)) ;;
  render_body response.

(** Lines 87-94: the [except] clauses, first match first. *)
Definition classify (e : exc) : option (M unit) :=
  if isinstance e HTTPError then
    Some (print (http_error_banner ++ exc_msg e) ;;
          match exc_response e with
          | Some r =>
            if Response_bool r then print (response_content_label ++ text r)
            else ret tt
          | None => ret tt
          end)
  else if isinstance e RequestException then
    Some (print (network_error_banner ++ exc_msg e))
  else if isinstance e Exception then
    Some (print (unknown_error_banner ++ exc_msg e))
  else None.

Definition make_request (method url : str) (headers : option loc)
    (data : option str) (json_data : value) (verbose : bool) : M unit :=
  preview method url headers data json_data verbose ;;
  try_except (send_and_render method url headers data json_data) classify.

(** Lines 131-138: one [-H] token. *)
Definition add_header (headers : loc) (header : str) : M unit :=
  try_except
    (match split1 58%N header with
     | Some (key, value) => setitem headers (strip key) (strip value)
     | None => raise (new_exc ValueError (lit "not enough values to unpack (expected 2, got 1)"))
     end)
    (fun e =>
       if isinstance e ValueError then Some (print (header_warning header))
       else None).

(** [with open(path, 'r', encoding='utf-8') as f: json.load(f)]: the
    file is read in text mode, which translates the line endings. *)
Definition load_json_file (path : str) : M value :=
  match open_read path with
  | FileText t => json_loads lim (universal_newlines t)
  | FileError e => raise (new_exc (io_error_class e) [])
  end.

(** Lines 140-158: the JSON body, from [-j] or from [-f]. *)
Definition resolve_json_body (args : Args) : M value :=
  if opt_truthy (json_data args) then
    try_except
      (json_loads lim (match json_data args with Some s => s | None => [] end))
      (fun e =>
         if isinstance e JSONDecodeError then
           Some (print invalid_json_message ;; sys_exit 1)
         else None)
  else if opt_truthy (file args) then
    let path := match file args with Some p => p | None => [] end in
    try_except
      (load_json_file path)
      (fun e =>
         if isinstance e FileNotFoundError then
           Some (print (file_not_found_message path) ;; sys_exit 1)
         else if isinstance e JSONDecodeError then
           Some (print (invalid_file_message path) ;; sys_exit 1)
         else None)
  else ret JNull.

Definition main (args : Args) : M unit :=
  headers <- new_dict [] ;;
  match header args with
  | Some (h :: hs) => for_each (h :: hs) (add_header headers)
  | _ => ret tt
  end ;;
  let raw_body := data args in
  json_body <- resolve_json_body args ;;
  make_request (method args) (url args) (Some headers) raw_body json_body (verbose args).

Definition empty_world : world := mkWorld [] [].

(** Running the script: the exit status and what was printed and sent. *)
Definition run (args : Args) : Z * list event :=
  let '(r, w) := main args empty_world in (exit_status r, trace w).

End Program.

End ApiTester.
Import ApiTester.

(* ===================================================================== *)
(** ** Equality of strings *)
(* ===================================================================== *)

Section StrEquality.

Lemma str_eqb_eq a b : str_eqb a b = true <-> a = b.
Proof. unfold str_eqb. destruct (list_eq_dec N.eq_dec a b); split; congruence. Qed.

Lemma str_eqb_refl a : str_eqb a a = true.
Proof. now apply str_eqb_eq. Qed.

Lemma str_eqb_neq a b : str_eqb a b = false <-> a <> b.
Proof. unfold str_eqb. destruct (list_eq_dec N.eq_dec a b); split; congruence. Qed.

End StrEquality.

(* ===================================================================== *)
(** ** The fuel of the scanner is enough *)
(* ===================================================================== *)

(** The scanner functions recurse on a counter. [scanstring] returns
    with any counter that is at least the number of characters it
    consumes; [scan_once] gives the same result, value or error, with every
    counter above twice the length of the text. So the counters [loads]
    starts them with never cut a scan short. *)
Section ScannerFuel.

Variable lim : limits.

Lemma strip_prefix_some p s r : strip_prefix p s = Some r <-> s = p ++ r.
Proof.
  revert s; induction p as [|a p IH]; intros s; simpl.
  - split; congruence.
  - destruct s as [|b s]; [split; discriminate|].
    destruct (N.eqb_spec a b) as [->|Hne].
    + rewrite IH. split; congruence.
    + split; [discriminate|congruence].
Qed.

Lemma strip_prefix_length p s r :
  strip_prefix p s = Some r -> length s = (length p + length r)%nat.
Proof. intros H. apply strip_prefix_some in H. subst. apply length_app. Qed.

Lemma skip_ws_length s : (length (skip_ws s) <= length s)%nat.
Proof.
  induction s as [|c r IH]; simpl; auto.
  destruct (is_ws c); simpl; lia.
Qed.

Lemma hex4_length s u r : hex4 s = Some (u, r) -> length s = (4 + length r)%nat.
Proof.
  unfold hex4. destruct s as [|a [|b [|c [|d t]]]]; try discriminate.
  destruct (hex_val a), (hex_val b), (hex_val c), (hex_val d); try discriminate.
  intros H. injection H as _ <-. reflexivity.
Qed.

Lemma span_length f s a b : span f s = (a, b) -> length s = (length a + length b)%nat.
Proof.
  revert a b; induction s as [|c r IH]; intros a b; simpl.
  - intros H. injection H as <- <-. reflexivity.
  - destruct (f c).
    + destruct (span f r) as [a' b'] eqn:E. intros H. injection H as <- <-.
      simpl. now rewrite (IH a' b' eq_refl).
    + intros H. injection H as <- <-. reflexivity.
Qed.

Lemma scan_sign_length plus s neg r :
  scan_sign plus s = (neg, r) -> (length r <= length s)%nat.
Proof.
  unfold scan_sign. destruct s as [|c t]; [intros H; injection H as _ <-; auto|].
  destruct (c =? 45)%N; [intros H; injection H as _ <-; simpl; lia|].
  destruct (plus && (c =? 43)%N); intros H; injection H as _ <-; simpl; lia.
Qed.

Lemma scan_int_part_length s ds r :
  scan_int_part s = Some (ds, r) -> (length r < length s)%nat.
Proof.
  unfold scan_int_part. destruct s as [|c t]; [discriminate|].
  destruct ((49 <=? c) && (c <=? 57))%N.
  - destruct (span is_digit t) as [a b] eqn:E. intros H. injection H as _ <-.
    apply span_length in E. simpl. lia.
  - destruct (c =? 48)%N; [|discriminate]. intros H. injection H as _ <-. simpl. lia.
Qed.

Lemma scan_fraction_length s ds r :
  scan_fraction s = (ds, r) -> (length r <= length s)%nat.
Proof.
  unfold scan_fraction. destruct s as [|p [|d t]]; try (intros H; injection H as _ <-; auto).
  destruct ((p =? 46)%N && is_digit d).
  - destruct (span is_digit t) as [a b] eqn:E. intros H. injection H as _ <-.
    apply span_length in E. simpl. lia.
  - intros H. injection H as _ <-. auto.
Qed.

Lemma scan_exponent_length s e r :
  scan_exponent s = (e, r) -> (length r <= length s)%nat.
Proof.
  unfold scan_exponent. destruct s as [|c t]; [intros H; injection H as _ <-; auto|].
  destruct ((c =? 101) || (c =? 69))%N; [|intros H; injection H as _ <-; auto].
  destruct (scan_sign true t) as [eneg r1] eqn:E1.
  destruct (span is_digit r1) as [ds rest] eqn:E2.
  apply scan_sign_length in E1. apply span_length in E2.
  destruct ds; intros H; injection H as _ <-; simpl in *; lia.
Qed.

Lemma match_number_length s v r :
  match_number lim s = Scanned v r -> (length r < length s)%nat.
Proof.
  unfold match_number.
  destruct (scan_sign false s) as [neg s1] eqn:E1.
  destruct (scan_int_part s1) as [[ids s2]|] eqn:E2; [|discriminate].
  destruct (scan_fraction s2) as [frac s3] eqn:E3.
  destruct (scan_exponent s3) as [ex s4] eqn:E4.
  apply scan_sign_length in E1. apply scan_int_part_length in E2.
  apply scan_fraction_length in E3. apply scan_exponent_length in E4.
  destruct frac, ex; try destruct (exceeds_digits lim (length ids));
    intros H; try discriminate; injection H as _ <-; lia.
Qed.

Lemma scan_constant_length table s v r :
  Forall (fun entry => fst entry <> []) table ->
  scan_constant table s = Some (v, r) -> (length r < length s)%nat.
Proof.
  induction 1 as [|[name v'] table Hname _ IH]; simpl; [discriminate|].
  destruct (strip_prefix name s) as [rest|] eqn:E; auto.
  intros H. injection H as _ <-. apply strip_prefix_length in E.
  destruct name; simpl in *; [congruence|lia].
Qed.

Lemma constants_named : Forall (fun entry : str * value => fst entry <> []) constants.
Proof. repeat constructor; discriminate. Qed.

Ltac split_scan H :=
  repeat match type of H with
         | context [if ?b then _ else _] => destruct b eqn:?
         | context [match ?x with _ => _ end] => destruct x eqn:?
         end; try discriminate.

Ltac replay :=
  repeat match goal with
         | E : ?x = _ |- context [?x] => rewrite E
         end.

Lemma scanstring_bound k s acc x r :
  scanstring k s acc = Some (x, r) ->
  (length r < length s)%nat
  /\ forall k', (length s - length r <= k')%nat -> scanstring k' s acc = Some (x, r).
Proof.
  revert s acc; induction k as [|k IH]; intros s acc H; [discriminate|].
  cbn [scanstring] in H. destruct s as [|c t]; [discriminate|].
  destruct (c =? 34)%N eqn:Eq.
  { injection H as <- <-. split; [cbn [length]; lia|].
    intros [|k'] Hk; [cbn [length] in Hk; lia|]. cbn [scanstring]. now rewrite Eq. }
  destruct (c =? 92)%N eqn:Eb.
  - destruct t as [|e r1]; [discriminate|].
    destruct (e =? 117)%N eqn:Eu.
    + destruct (hex4 r1) as [[u r2]|] eqn:Eh; [|discriminate].
      pose proof Eh as Lh. apply hex4_length in Lh.
      destruct (is_high_surrogate u) eqn:Ehi.
      * destruct (strip_prefix [92; 117]%N r2) as [r3|] eqn:Es.
        -- destruct (hex4 r3) as [[u2 r4]|] eqn:Eh2; [|discriminate].
           pose proof Eh2 as Lh2. apply hex4_length in Lh2.
           pose proof Es as Ls. apply strip_prefix_length in Ls. cbn [length] in Ls.
           destruct (is_low_surrogate u2) eqn:Elo;
             apply IH in H; destruct H as [Hlen Hk]; (split; [cbn [length]; lia|]);
             intros [|k'] Hk'; try (cbn [length] in Hk'; lia);
             cbn [scanstring]; rewrite Eq, Eb, Eu, Eh, Ehi, Es, Eh2, Elo; apply Hk; cbn [length] in Hk'; lia.
        -- apply IH in H; destruct H as [Hlen Hk]; (split; [cbn [length]; lia|]).
           intros [|k'] Hk'; try (cbn [length] in Hk'; lia).
           cbn [scanstring]; rewrite Eq, Eb, Eu, Eh, Ehi, Es; apply Hk; cbn [length] in Hk'; lia.
      * apply IH in H; destruct H as [Hlen Hk]; (split; [cbn [length]; lia|]).
        intros [|k'] Hk'; try (cbn [length] in Hk'; lia).
        cbn [scanstring]; rewrite Eq, Eb, Eu, Eh, Ehi; apply Hk; cbn [length] in Hk'; lia.
    + destruct (unescape e) as [ch|] eqn:Ee; [|discriminate].
      apply IH in H; destruct H as [Hlen Hk]; (split; [cbn [length]; lia|]).
      intros [|k'] Hk'; try (cbn [length] in Hk'; lia).
      cbn [scanstring]; rewrite Eq, Eb, Eu, Ee; apply Hk; cbn [length] in Hk'; lia.
  - destruct (c <=? 31)%N eqn:Ec; [discriminate|].
    apply IH in H; destruct H as [Hlen Hk]; (split; [cbn [length]; lia|]).
    intros [|k'] Hk'; try (cbn [length] in Hk'; lia).
    cbn [scanstring]; rewrite Eq, Eb, Ec; apply Hk; cbn [length] in Hk'; lia.
Qed.


Ltac lengths :=
  repeat match goal with
         | E : strip_prefix ?p ?s = Some ?r |- _ =>
           lazymatch goal with
           | _ : length s = (length p + length r)%nat |- _ => fail
           | _ => pose proof (proj1 (strip_prefix_some p s r) E) as ?;
                  assert (length s = (length p + length r)%nat)
                    by (now apply strip_prefix_length)
           end
         | |- context [skip_ws ?s] =>
           lazymatch goal with
           | _ : (length (skip_ws s) <= length s)%nat |- _ => fail
           | _ => pose proof (skip_ws_length s)
           end
         | _ : context [skip_ws ?s] |- _ =>
           lazymatch goal with
           | _ : (length (skip_ws s) <= length s)%nat |- _ => fail
           | _ => pose proof (skip_ws_length s)
           end
         end;
  cbn [length] in *.

Lemma raise_errmsg_scanned d v r : raise_errmsg lim d <> Scanned v r.
Proof. unfold raise_errmsg. now destruct (error_refusal lim d). Qed.

Lemma constant_scanned d v rest v' r :
  constant lim d v rest = Scanned v' r -> v' = v /\ r = rest.
Proof.
  unfold constant.
  destruct v; try (intros H; injection H as <- <-; auto).
  destruct (constant_refusal lim d); [discriminate|].
  intros H; injection H as <- <-; auto.
Qed.

Ltac no_value H := exfalso; exact (raise_errmsg_scanned _ _ _ H).

(** A value takes at least one character. *)
Lemma scan_length k :
  (forall d s v r, scan_once lim k d s = Scanned v r -> (length r < length s)%nat)
  /\ (forall d s acc v r,
         parse_array lim k d s acc = Scanned v r -> (length r < length s)%nat)
  /\ (forall d s acc v r,
         parse_object lim k d s acc = Scanned v r -> (length r < length s)%nat).
Proof.
  induction k as [|k (IH1 & IH2 & IH3)]; [repeat split; discriminate|].
  split; [|split].
  - (* scan_once *)
    intros d s v r H. cbn [scan_once] in H. destruct s as [|c t]; [discriminate|].
    destruct (c =? 34)%N eqn:E34.
    { destruct (scanstring (S (length t)) t []) as [[x rest]|] eqn:Es; [|no_value H].
      injection H as <- <-. apply scanstring_bound in Es. cbn [length]. lia. }
    destruct (c =? 123)%N eqn:E123.
    { destruct d as [|d]; [discriminate|].
      destruct (strip_prefix [125]%N (skip_ws t)) as [rest|] eqn:Ec.
      - injection H as <- <-. lengths. lia.
      - apply IH3 in H. lengths. lia. }
    destruct (c =? 91)%N eqn:E91.
    { destruct d as [|d]; [discriminate|].
      destruct (strip_prefix [93]%N (skip_ws t)) as [rest|] eqn:Ec.
      - injection H as <- <-. lengths. lia.
      - apply IH2 in H. lengths. lia. }
    destruct (scan_constant constants (c :: t)) as [[v1 r1]|] eqn:Ek.
    + apply constant_scanned in H. destruct H as [-> ->].
      apply scan_constant_length in Ek; [exact Ek|exact constants_named].
    + now apply match_number_length in H.
  - (* parse_array *)
    intros d s acc v r H. cbn [parse_array] in H.
    destruct (scan_once lim k d s) as [v1 r1| |e] eqn:E1; try discriminate.
    apply IH1 in E1.
    destruct (strip_prefix [93]%N (skip_ws r1)) as [rest|] eqn:Ec.
    + injection H as <- <-. lengths. lia.
    + destruct (strip_prefix [44]%N (skip_ws r1)) as [rest|] eqn:Ed; [|no_value H].
      apply IH2 in H. lengths. lia.
  - (* parse_object *)
    intros d s acc v r H. cbn [parse_object] in H.
    destruct (strip_prefix [34]%N s) as [t|] eqn:Eq; [|no_value H].
    destruct (scanstring (S (length t)) t []) as [[key r1]|] eqn:Es; [|no_value H].
    destruct (strip_prefix [58]%N (skip_ws r1)) as [r2|] eqn:Ec; [|no_value H].
    destruct (scan_once lim k d (skip_ws r2)) as [v1 r3| |e] eqn:E1; try discriminate.
    apply IH1 in E1. apply scanstring_bound in Es. destruct Es as [Ls _].
    destruct (strip_prefix [125]%N (skip_ws r3)) as [rest|] eqn:Ee.
    + injection H as <- <-. lengths. lia.
    + destruct (strip_prefix [44]%N (skip_ws r3)) as [rest|] eqn:Ed; [|no_value H].
      apply IH3 in H. lengths. lia.
Qed.

(** Above twice the length of the text, the counter makes no difference
    to the result. *)
Lemma scan_fuel k :
  (forall k' d s,
      (2 * length s < k)%nat -> (2 * length s < k')%nat ->
      scan_once lim k d s = scan_once lim k' d s)
  /\ (forall k' d s acc,
         (2 * length s + 1 < k)%nat -> (2 * length s + 1 < k')%nat ->
         parse_array lim k d s acc = parse_array lim k' d s acc)
  /\ (forall k' d s acc,
         (2 * length s + 1 < k)%nat -> (2 * length s + 1 < k')%nat ->
         parse_object lim k d s acc = parse_object lim k' d s acc).
Proof.
  induction k as [|k (IH1 & IH2 & IH3)]; [repeat split; intros; lia|].
  split; [|split].
  - (* scan_once *)
    intros [|k'] d s Hk Hk'; [lia|]. cbn [scan_once].
    destruct s as [|c t]; [reflexivity|]. cbn [length] in Hk, Hk'.
    destruct (c =? 34)%N; [reflexivity|].
    destruct (c =? 123)%N.
    { destruct d as [|d]; [reflexivity|].
      destruct (strip_prefix [125]%N (skip_ws t)); [reflexivity|].
      pose proof (skip_ws_length t). apply IH3; lia. }
    destruct (c =? 91)%N.
    { destruct d as [|d]; [reflexivity|].
      destruct (strip_prefix [93]%N (skip_ws t)); [reflexivity|].
      pose proof (skip_ws_length t). apply IH2; lia. }
    reflexivity.
  - (* parse_array *)
    intros [|k'] d s acc Hk Hk'; [lia|]. cbn [parse_array].
    rewrite (IH1 k' d s) by lia.
    destruct (scan_once lim k' d s) as [v1 r1| |e] eqn:E1; try reflexivity.
    apply (proj1 (scan_length k')) in E1.
    destruct (strip_prefix [93]%N (skip_ws r1)) as [rest|] eqn:Ec; [reflexivity|].
    destruct (strip_prefix [44]%N (skip_ws r1)) as [rest|] eqn:Ed; [|reflexivity].
    lengths. apply IH2; lia.
  - (* parse_object *)
    intros [|k'] d s acc Hk Hk'; [lia|]. cbn [parse_object].
    destruct (strip_prefix [34]%N s) as [t|] eqn:Eq; [|reflexivity].
    destruct (scanstring (S (length t)) t []) as [[key r1]|] eqn:Es; [|reflexivity].
    destruct (strip_prefix [58]%N (skip_ws r1)) as [r2|] eqn:Ec; [|reflexivity].
    apply scanstring_bound in Es. destruct Es as [Ls _].
    lengths.
    rewrite (IH1 k' d (skip_ws r2)) by lia.
    destruct (scan_once lim k' d (skip_ws r2)) as [v1 r3| |e] eqn:E1; try reflexivity.
    apply (proj1 (scan_length k')) in E1.
    destruct (strip_prefix [125]%N (skip_ws r3)) as [rest|] eqn:Ee; [reflexivity|].
    destruct (strip_prefix [44]%N (skip_ws r3)) as [rest|] eqn:Ed; [|reflexivity].
    lengths. apply IH3; lia.
Qed.

(** The counter [loads] uses, or a larger one, gives what any counter
    above twice the length of the text gives. *)
Theorem scan_once_fuel k d s :
  (2 * length s < k)%nat ->
  scan_once lim k d s = scan_once lim (S (2 * length s)) d s.
Proof. intros H. apply (proj1 (scan_fuel k)); lia. Qed.

End ScannerFuel.

(* ===================================================================== *)
(** ** Line endings do not matter to the scanner *)
(* ===================================================================== *)

(** Outside strings, carriage returns and line feeds are whitespace;
    inside strings they are refused. So a text that parses gives the same
    value after any change to its runs of line endings, and in particular
    after [universal_newlines]. *)
Section LineEndings.

Open Scope N_scope.

Variable lim : limits.

Definition is_nl (c : N) : bool := (c =? 10) || (c =? 13).



Lemma is_nl_cases c : is_nl c = true -> c = 10 \/ c = 13.
Proof.
  unfold is_nl. intros H. apply orb_true_iff in H.
  destruct H as [H|H]; apply N.eqb_eq in H; auto.
Qed.







(** A test that fails on line endings gives the same on both heads. *)
Definition nl_blind (f : N -> bool) : Prop := f 10 = false /\ f 13 = false.

Lemma nl_blind_false f c : nl_blind f -> is_nl c = true -> f c = false.
Proof. intros [H1 H2] H. apply is_nl_cases in H. destruct H as [->| ->]; auto. Qed.

Lemma nl_blind_true f c : nl_blind f -> f c = true -> is_nl c = false.
Proof.
  intros Hf H. destruct (is_nl c) eqn:E; auto.
  rewrite (nl_blind_false _ _ Hf E) in H. discriminate.
Qed.



Lemma nl_blind_eqb_r a : is_nl a = false -> nl_blind (fun c => c =? a).
Proof.
  unfold is_nl, nl_blind. intros H. apply orb_false_iff in H.
  rewrite !(N.eqb_sym _ a). tauto.
Qed.



Lemma is_digit_blind : nl_blind is_digit.
Proof. split; reflexivity. Qed.

Lemma is_digit_not_nl c : is_digit c = true -> is_nl c = false.
Proof. apply nl_blind_true, is_digit_blind. Qed.






















End LineEndings.

(* ===================================================================== *)
(** ** The limits matter only when they are met *)
(* ===================================================================== *)

(** A scan that meets no limit gives the same result under any larger
    limits; and a text cannot meet the limits that [unlimited] gives it. *)
Section ScannerLimits.

(** No limit on digits, a budget no text of this length can use up, and
    room for every call. *)
Definition unlimited (s : str) : limits :=
  mkLimits 0 (length s) (fun _ => None) (fun _ => None).

(** Limits under which only the recursion budget can be met. *)
Definition generous (lim : limits) : Prop :=
  max_str_digits lim = O
  /\ (forall d, error_refusal lim d = None)
  /\ (forall d, constant_refusal lim d = None).

Lemma unlimited_generous s : generous (unlimited s).
Proof. repeat split. Qed.

Definition met (r : scanned) : bool :=
  match r with
  | Refused _ => true
  | _ => false
  end.





Lemma match_number_unmet lim s :
  generous lim -> met (match_number lim s) = false.
Proof.
  intros (H0 & _ & _). unfold match_number.
  destruct (scan_sign false s) as [neg s1].
  destruct (scan_int_part s1) as [[ids s2]|]; [|reflexivity].
  destruct (scan_fraction s2) as [frac s3].
  destruct (scan_exponent s3) as [ex s4].
  unfold exceeds_digits. rewrite H0.
  destruct frac, ex; reflexivity.
Qed.

Lemma raise_errmsg_unmet lim d : generous lim -> met (raise_errmsg lim d) = false.
Proof. intros (_ & He & _). unfold raise_errmsg. now rewrite He. Qed.

Lemma constant_unmet lim d v rest : generous lim -> met (constant lim d v rest) = false.
Proof. intros (_ & _ & Hc). unfold constant. rewrite Hc. now destruct v. Qed.

Lemma scan_unmet lim k :
  generous lim ->
  (forall d s, (length s <= d)%nat -> met (scan_once lim k d s) = false)
  /\ (forall d s acc, (length s <= d)%nat -> met (parse_array lim k d s acc) = false)
  /\ (forall d s acc, (length s <= d)%nat -> met (parse_object lim k d s acc) = false).
Proof.
  intros Hg.
  induction k as [|k (IH1 & IH2 & IH3)]; [repeat split; reflexivity|].
  split; [|split].
  - (* scan_once *)
    intros d s Hd. cbn [scan_once].
    destruct s as [|c t]; [reflexivity|]. cbn [length] in Hd.
    destruct (c =? 34)%N.
    { destruct (scanstring (S (length t)) t []) as [[x rest]|];
        [reflexivity|now apply raise_errmsg_unmet]. }
    pose proof (skip_ws_length t).
    destruct (c =? 123)%N.
    { destruct d as [|d]; [lia|].
      destruct (strip_prefix [125]%N (skip_ws t)); [reflexivity|]. apply IH3. lia. }
    destruct (c =? 91)%N.
    { destruct d as [|d]; [lia|].
      destruct (strip_prefix [93]%N (skip_ws t)); [reflexivity|]. apply IH2. lia. }
    destruct (scan_constant constants (c :: t)) as [[v1 r1]|].
    + now apply constant_unmet.
    + now apply match_number_unmet.
  - (* parse_array *)
    intros d s acc Hd. cbn [parse_array].
    pose proof (IH1 d s Hd) as Hfirst.
    destruct (scan_once lim k d s) as [v1 r1| |e] eqn:E1; try discriminate; auto.
    apply (proj1 (scan_length lim k)) in E1.
    destruct (strip_prefix [93]%N (skip_ws r1)) as [rest|] eqn:Ec; [reflexivity|].
    destruct (strip_prefix [44]%N (skip_ws r1)) as [rest|] eqn:Ed;
      [|now apply raise_errmsg_unmet].
    apply strip_prefix_length in Ed. cbn [length] in Ed.
    pose proof (skip_ws_length r1). pose proof (skip_ws_length rest).
    apply IH2. lia.
  - (* parse_object *)
    intros d s acc Hd. cbn [parse_object].
    destruct (strip_prefix [34]%N s) as [t|] eqn:Eq; [|now apply raise_errmsg_unmet].
    destruct (scanstring (S (length t)) t []) as [[key r1]|] eqn:Es;
      [|now apply raise_errmsg_unmet].
    destruct (strip_prefix [58]%N (skip_ws r1)) as [r2|] eqn:Ec;
      [|now apply raise_errmsg_unmet].
    apply strip_prefix_length in Eq. apply strip_prefix_length in Ec.
    apply scanstring_bound in Es. destruct Es as [Ls _]. cbn [length] in Eq, Ec.
    pose proof (skip_ws_length r1). pose proof (skip_ws_length r2).
    assert (Hd2 : (length (skip_ws r2) <= d)%nat) by lia.
    pose proof (IH1 d _ Hd2) as Hfirst.
    destruct (scan_once lim k d (skip_ws r2)) as [v1 r3| |e] eqn:E1; try discriminate; auto.
    apply (proj1 (scan_length lim k)) in E1.
    destruct (strip_prefix [125]%N (skip_ws r3)) as [rest|] eqn:Ee; [reflexivity|].
    destruct (strip_prefix [44]%N (skip_ws r3)) as [rest|] eqn:Ed;
      [|now apply raise_errmsg_unmet].
    apply strip_prefix_length in Ed. cbn [length] in Ed.
    pose proof (skip_ws_length r3). pose proof (skip_ws_length rest).
    apply IH3. lia.
Qed.

(** Without limits no text is refused. *)
Theorem loads_unlimited_total s e : loads (unlimited s) s <> Refusal e.
Proof.
  unfold loads. destruct (strip_prefix [65279]%N s); [discriminate|].
  pose proof (proj1 (scan_unmet (unlimited s) (S (2 * length s)) (unlimited_generous s))
                (length s) (skip_ws s) (skip_ws_length s)) as H.
  simpl recursion_budget.
  destruct (scan_once _ _ _ _) as [v r| |x]; try discriminate.
  now destruct (skip_ws r).
Qed.


End ScannerLimits.

(* ===================================================================== *)
(** ** Running the effects *)
(* ===================================================================== *)

Section Runs.

Open Scope py_scope.

Lemma run_bind A B (c : M A) (k : A -> M B) w a w' :
  c w = (Ret a, w') -> bind c k w = k a w'.
Proof. intros H. unfold bind. now rewrite H. Qed.

Lemma run_bind_raise A B (c : M A) (k : A -> M B) w e w' :
  c w = (Raise e, w') -> bind c k w = (Raise e, w').
Proof. intros H. unfold bind. now rewrite H. Qed.

Lemma run_print s w : print s w = (Ret tt, mkWorld (heap w) (trace w ++ [Print s])).
Proof. reflexivity. Qed.

Lemma run_try_ret A (body : M A) handler w a w' :
  body w = (Ret a, w') -> try_except body handler w = (Ret a, w').
Proof. intros H. unfold try_except. now rewrite H. Qed.

Lemma run_try_caught A (body : M A) handler w e w' h :
  body w = (Raise e, w') -> handler e = Some h -> try_except body handler w = h w'.
Proof. intros H1 H2. unfold try_except. now rewrite H1, H2. Qed.

Lemma run_try_escapes A (body : M A) handler w e w' :
  body w = (Raise e, w') -> handler e = None ->
  try_except body handler w = (Raise e, w').
Proof. intros H1 H2. unfold try_except. now rewrite H1, H2. Qed.

Lemma nth_alloc (h : list (dict str)) (d : dict str) :
  nth (length h) (h ++ [d]) [] = d.
Proof. induction h; simpl; auto. Qed.

Lemma nth_old (h : list (dict str)) (d : dict str) (l : loc) :
  (l < length h)%nat -> nth l (h ++ [d]) [] = nth l h [].
Proof. intros H. now apply app_nth1. Qed.

Lemma update_alloc (h : list (dict str)) (d x : dict str) :
  update (length h) x (h ++ [d]) = h ++ [x].
Proof. induction h; simpl; congruence. Qed.

Lemma update_length (h : list (dict str)) l x : length (update l x h) = length h.
Proof. revert l; induction h; intros [|l]; simpl; auto. Qed.

Lemma nth_update_same (h : list (dict str)) l x :
  (l < length h)%nat -> nth l (update l x h) [] = x.
Proof.
  revert l; induction h; intros [|l]; simpl; intros H; try lia; auto.
  apply IHh; lia.
Qed.

Lemma nth_update_other (h : list (dict str)) l l' x :
  l <> l' -> nth l' (update l x h) [] = nth l' h [].
Proof.
  revert l l'; induction h; intros [|l] [|l']; simpl; intros H; try congruence; auto.
Qed.

Lemma for_each_print A (f : A -> str) (xs : list A) (w : world) :
  for_each xs (fun x => print (f x)) w
  = (Ret tt, mkWorld (heap w) (trace w ++ map (fun x => Print (f x)) xs)).
Proof.
  revert w; induction xs as [|x xs IH]; intros w; simpl.
  - rewrite app_nil_r. now destruct w.
  - unfold bind, print, emit at 1. simpl. rewrite IH. simpl.
    now rewrite <- app_assoc.
Qed.

End Runs.

(* ===================================================================== *)
(** ** What [make_request] prints and sends *)
(* ===================================================================== *)

Section Behaviour.

Open Scope py_scope.

Variable lim : limits.
Variable upper : str -> str.
Variable requests_request : request -> Response + exc.

(** The content of the mapping a [headers] argument refers to. *)
Definition deref (w : world) (headers : option loc) : option (dict str) :=
  match headers with
  | Some l => Some (nth l (heap w) [])
  | None => None
  end.

Definition allocated (w : world) (headers : option loc) : Prop :=
  match headers with
  | Some l => (l < length (heap w))%nat
  | None => True
  end.

Definition user_headers (w : world) (headers : option loc) : dict str :=
  match deref w headers with
  | Some d => d
  | None => []
  end.

Definition content_type : str := lit "Content-Type".
Definition application_json : str := lit "application/json".

(** The headers the preview lists. *)
Definition shown_headers (hs : dict str) (json_data : value) : dict str :=
  if truthy json_data then dict_set content_type application_json hs else hs.

(** The body block of the preview. *)
Definition preview_body (data : option str) (json_data : value) : list event :=
  match data with
  | Some (c :: d) => [Print form_body_title; Print (c :: d)]
  | _ => if truthy json_data
         then [Print json_body_title; Print (dumps json_data)]
         else []
  end.

Definition preview_trace (method url : str) (hs : dict str) (data : option str)
    (json_data : value) (verbose : bool) : list event :=
  if verbose then
    [Print banner_outgoing; Print (request_line (upper method) url); Print headers_title]
      ++ map (fun kv => Print (preview_header_line kv)) (shown_headers hs json_data)
      ++ preview_body data json_data
      ++ [Print separator]
  else [Print (sending_line (upper method) url)].

Definition heap_after_preview (w : world) (headers : option loc)
    (json_data : value) (verbose : bool) : list (dict str) :=
  if verbose then heap w ++ [shown_headers (user_headers w headers) json_data]
  else heap w.

Lemma copy_or_empty_run headers w :
  copy_or_empty headers w
  = (Ret (length (heap w)), mkWorld (heap w ++ [user_headers w headers]) (trace w)).
Proof.
  unfold copy_or_empty, user_headers, deref.
  destruct headers as [l|]; [|reflexivity].
  unfold bind, headers_truthy, copy, load, new_dict, ret, bind; simpl.
  destruct (nth l (heap w) []) eqn:Hd; simpl; rewrite ?Hd; auto.
Qed.

Lemma inject_run h hs json_data tr :
  (if truthy json_data
   then setitem (length h) (lit "Content-Type") (lit "application/json")
   else ret tt) (mkWorld (h ++ [hs]) tr)
  = (Ret tt, mkWorld (h ++ [shown_headers hs json_data]) tr).
Proof.
  unfold shown_headers.
  destruct (truthy json_data); unfold setitem, ret; simpl; auto.
  now rewrite nth_alloc, update_alloc.
Qed.

Lemma preview_body_run data json_data w :
  (if opt_truthy data then
     print form_body_title ;;
     print (match data with Some d => d | None => [] end)
   else if truthy json_data then
     print json_body_title ;;
     print (dumps json_data)
   else ret tt) w
  = (Ret tt, mkWorld (heap w) (trace w ++ preview_body data json_data)).
Proof.
  unfold preview_body.
  destruct data as [[|c d]|]; simpl.
  - destruct (truthy json_data); unfold bind, print, emit, ret; simpl;
      rewrite <- ?app_assoc; simpl; rewrite ?app_nil_r; destruct w; auto.
  - unfold bind, print, emit; simpl. now rewrite <- !app_assoc.
  - destruct (truthy json_data); unfold bind, print, emit, ret; simpl;
      rewrite <- ?app_assoc; simpl; rewrite ?app_nil_r; destruct w; auto.
Qed.

Lemma preview_run method url headers data json_data verbose w :
  preview upper method url headers data json_data verbose w
  = (Ret tt,
     mkWorld (heap_after_preview w headers json_data verbose)
             (trace w ++ preview_trace method url (user_headers w headers)
                                       data json_data verbose)).
Proof.
  unfold preview, heap_after_preview, preview_trace.
  destruct verbose; [|reflexivity].
  erewrite run_bind by apply run_print.
  erewrite run_bind by apply run_print.
  erewrite run_bind by apply copy_or_empty_run. simpl.
  erewrite run_bind by apply inject_run.
  erewrite run_bind by apply run_print. simpl.
  erewrite run_bind by (unfold load; simpl; rewrite nth_alloc; reflexivity).
  erewrite run_bind by apply for_each_print. simpl.
  erewrite run_bind by apply preview_body_run. simpl.
  rewrite run_print. simpl. rewrite <- !app_assoc. reflexivity.
Qed.

(** The one request [make_request] sends from [w]. *)
Definition request_of (method url : str) (w : world) (headers : option loc)
    (data : option str) (json_data : value) : request :=
  mkRequest method url (deref w headers) data json_data 10.

Lemma call_requests_run method url headers data json timeout w :
  call_requests requests_request method url headers data json timeout w
  = (match requests_request (mkRequest method url (deref w headers) data json timeout) with
     | inl r => Ret r
     | inr e => Raise e
     end,
     mkWorld (heap w)
             (trace w ++ [Request (mkRequest method url (deref w headers) data json timeout)])).
Proof.
  unfold call_requests, deref.
  destruct headers as [l|]; unfold bind, load, ret, emit, raise; simpl;
    match goal with |- context [requests_request ?q] => destruct (requests_request q) end;
    reflexivity.
Qed.

Lemma deref_after_preview w headers json_data verbose tr :
  allocated w headers ->
  deref (mkWorld (heap_after_preview w headers json_data verbose) tr) headers
  = deref w headers.
Proof.
  unfold deref, allocated, heap_after_preview.
  destruct headers as [l|]; auto. intros H. simpl.
  destruct verbose; auto. now rewrite nth_old.
Qed.

(** What follows the title of the body block of a successful response:
    the body as it is shown or, when the interpreter refuses the body text,
    the report of that error as an unknown error. *)
Definition body_text (r : Response) : str :=
  match loads lim (text r) with
  | Decoded v => dumps v
  | DecodeError => if str_truthy (text r) then text r else no_body
  | Refusal e => unknown_error_banner ++ refusal_msg e
  end.

Lemma render_body_run r w :
  render_body lim r w
  = match loads lim (text r) with
    | Refusal e =>
      (Raise (refusal_exc e), mkWorld (heap w) (trace w ++ [Print response_body_title]))
    | _ =>
      (Ret tt,
       mkWorld (heap w) (trace w ++ [Print response_body_title; Print (body_text r)]))
    end.
Proof.
  unfold render_body, body_text, Response_json.
  erewrite run_bind by apply run_print.
  destruct (loads lim (text r)) as [v| |e].
  - erewrite run_try_ret; [reflexivity|].
    erewrite run_bind by reflexivity. rewrite run_print. simpl.
    now rewrite <- app_assoc.
  - erewrite run_try_caught; [| reflexivity | reflexivity].
    destruct (str_truthy (text r)); rewrite run_print; simpl;
      now rewrite <- app_assoc.
  - erewrite run_try_escapes; [reflexivity | reflexivity |].
    now destruct e as [limit digits|[|]|msg].
Qed.

(** A refusal of the scanner is reported as an unknown error. *)
Lemma classify_refusal e :
  classify (refusal_exc e) = Some (print (unknown_error_banner ++ refusal_msg e)).
Proof. now destruct e as [limit digits|[|]|msg]. Qed.

(** The three reported kinds of failure. *)
Inductive outcome := HttpStatusError | NetworkError | UnknownError.

Definition banner_of (o : outcome) : str :=
  match o with
  | HttpStatusError => http_error_banner
  | NetworkError => network_error_banner
  | UnknownError => unknown_error_banner
  end.

Definition outcome_of (e : exc) : outcome :=
  if isinstance e HTTPError then HttpStatusError
  else if isinstance e RequestException then NetworkError
  else UnknownError.

(** The failure of a transport call, if any: the exception the call
    raised, or the one [raise_for_status] raises on its response. *)
Definition failure_of (res : Response + exc) : option exc :=
  match res with
  | inr e => Some e
  | inl r => raise_for_status r
  end.

(** What the [except] clauses print for [e]. *)
Definition error_report (e : exc) : list event :=
  Print (banner_of (outcome_of e) ++ exc_msg e)
    :: match outcome_of e, exc_response e with
       | HttpStatusError, Some r =>
         if Response_bool r then [Print (response_content_label ++ text r)] else []
       | _, _ => []
       end.

Lemma classify_run e :
  isinstance e Exception = true ->
  exists h, classify e = Some h /\
    forall w, h w = (Ret tt, mkWorld (heap w) (trace w ++ error_report e)).
Proof.
  intros HE. unfold classify, error_report, outcome_of.
  destruct (isinstance e HTTPError).
  - eexists; split; [reflexivity|]. intros w.
    erewrite run_bind by apply run_print. simpl.
    destruct (exc_response e) as [r|]; [destruct (Response_bool r)|];
      unfold ret; rewrite ?run_print; simpl; rewrite <- ?app_assoc; reflexivity.
  - destruct (isinstance e RequestException).
    + eexists; split; [reflexivity|]. intros w. now rewrite run_print.
    + rewrite HE. eexists; split; [reflexivity|]. intros w. now rewrite run_print.
Qed.

Lemma classify_escapes e :
  isinstance e Exception = false -> classify e = None.
Proof.
  intros HE. unfold classify.
  assert (H1 : isinstance e HTTPError = false)
    by (revert HE; unfold isinstance; destruct (exc_cls e); vm_compute; congruence).
  assert (H2 : isinstance e RequestException = false)
    by (revert HE; unfold isinstance; destruct (exc_cls e); vm_compute; congruence).
  now rewrite H1, H2, HE.
Qed.

Lemma raise_for_status_exc r e :
  raise_for_status r = Some e ->
  e = mkExc HTTPError (http_error_msg r) (Some r) 0.
Proof.
  unfold raise_for_status. destruct (str_truthy (http_error_msg r)); congruence.
Qed.

Lemma failure_is_exception method url w headers data json_data r e :
  requests_request (request_of method url w headers data json_data) = inl r ->
  raise_for_status r = Some e -> isinstance e Exception = true.
Proof. intros _ H. apply raise_for_status_exc in H. now subst e. Qed.

(** A failed call: the report follows the request, nothing else does. *)
Lemma make_request_failure method url headers data json_data verbose w e :
  allocated w headers ->
  failure_of (requests_request (request_of method url w headers data json_data)) = Some e ->
  isinstance e Exception = true ->
  make_request lim upper requests_request method url headers data json_data verbose w
  = (Ret tt,
     mkWorld (heap_after_preview w headers json_data verbose)
             (trace w
                ++ preview_trace method url (user_headers w headers) data json_data verbose
                ++ Request (request_of method url w headers data json_data)
                :: error_report e)).
Proof.
  intros Hal Hf HE. unfold make_request.
  erewrite run_bind by apply preview_run.
  destruct (classify_run e HE) as (h & Hh & Hrun).
  set (w1 := mkWorld _ _).
  assert (Hbody : send_and_render lim requests_request method url headers data json_data w1
                  = (Raise e, mkWorld (heap w1)
                       (trace w1 ++ [Request (request_of method url w headers data json_data)]))).
  { unfold send_and_render, failure_of, request_of in *.
    destruct (requests_request (mkRequest method url (deref w headers) data json_data 10))
      as [r|e'] eqn:Hq.
    - erewrite run_bind.
      2:{ rewrite call_requests_run. unfold w1 at 1.
          rewrite deref_after_preview by exact Hal.
          rewrite Hq. reflexivity. }
      rewrite Hf. unfold w1. simpl.
      now rewrite deref_after_preview by exact Hal.
    - injection Hf as ->.
      erewrite run_bind_raise; [reflexivity|].
      rewrite call_requests_run. unfold w1.
      rewrite deref_after_preview by exact Hal.
      now rewrite Hq. }
  rewrite (run_try_caught _ _ _ _ _ _ _ Hbody Hh), Hrun. unfold w1. simpl.
  now rewrite <- !app_assoc.
Qed.

(** A call answered with a success status: banner, status line, headers
    and body block follow the request. *)
Lemma make_request_success method url headers data json_data verbose w r version :
  allocated w headers ->
  requests_request (request_of method url w headers data json_data) = inl r ->
  raise_for_status r = None ->
  (forall w', int_div_10 (raw_version r) w' = (Ret version, w')) ->
  make_request lim upper requests_request method url headers data json_data verbose w
  = (Ret tt,
     mkWorld (heap_after_preview w headers json_data verbose)
             (trace w
                ++ preview_trace method url (user_headers w headers) data json_data verbose
                ++ [Request (request_of method url w headers data json_data);
                    Print banner_response;
                    Print (status_line (float_repr version) r);
                    Print response_headers_title]
                ++ map (fun kv => Print (response_header_line kv)) (resp_headers r)
                ++ [Print response_body_title; Print (body_text r)])).
Proof.
  intros Hal Hq Hok Hv. unfold make_request.
  erewrite run_bind by apply preview_run.
  set (w1 := mkWorld _ _).
  assert (Hsend :
    send_and_render lim requests_request method url headers data json_data w1
    = render_body lim r
        (mkWorld (heap w1)
           (trace w1
              ++ [Request (request_of method url w headers data json_data);
                  Print banner_response;
                  Print (status_line (float_repr version) r);
                  Print response_headers_title]
              ++ map (fun kv => Print (response_header_line kv)) (resp_headers r)))).
  { unfold send_and_render.
    erewrite run_bind.
    2:{ rewrite call_requests_run. unfold w1 at 1.
        rewrite deref_after_preview by exact Hal.
        unfold request_of in Hq. rewrite Hq. reflexivity. }
    rewrite Hok.
    erewrite run_bind by reflexivity.
    erewrite run_bind by apply run_print.
    erewrite run_bind by apply Hv.
    erewrite run_bind by apply run_print.
    erewrite run_bind by apply run_print.
    erewrite run_bind by apply for_each_print.
    simpl. unfold request_of. unfold w1. rewrite deref_after_preview by exact Hal.
    rewrite <- !app_assoc. reflexivity. }
  pose proof (render_body_run r) as Hbody. unfold body_text in *.
  destruct (loads lim (text r)) as [v| |e].
  - erewrite run_try_ret by (rewrite Hsend, Hbody; reflexivity).
    unfold w1. simpl. now rewrite <- !app_assoc.
  - erewrite run_try_ret by (rewrite Hsend, Hbody; reflexivity).
    unfold w1. simpl. now rewrite <- !app_assoc.
  - erewrite run_try_caught;
      [ | rewrite Hsend, Hbody; reflexivity | apply classify_refusal ].
    rewrite run_print. unfold w1. simpl. now rewrite <- !app_assoc.
Qed.

Definition is_print (ev : event) : bool :=
  match ev with
  | Print _ => true
  | Request _ => false
  end.

Lemma float_ten : float_of_Z 10 = S754_finite false 5629499534213120 (-49).
Proof. reflexivity. Qed.

(** [n / 10.0] either gives a float or overflows, whatever the state. *)
Lemma int_div_10_cases n :
  (exists version, forall w, int_div_10 n w = (Ret version, w))
  \/ (forall w, int_div_10 n w
                = (Raise (new_exc OverflowError (lit "int too large to convert to float")), w)).
Proof.
  unfold int_div_10. rewrite float_ten. unfold truediv.
  destruct (float_of_Z n); [left|right|left|left];
    try (eexists; intros w; reflexivity); intros w; reflexivity.
Qed.

Lemma error_report_prints e : forallb is_print (error_report e) = true.
Proof.
  unfold error_report. simpl.
  destruct (outcome_of e); auto.
  destruct (exc_response e) as [r|]; auto. now destruct (Response_bool r).
Qed.

Lemma preview_trace_prints method url hs data json_data verbose :
  forallb is_print (preview_trace method url hs data json_data verbose) = true.
Proof.
  unfold preview_trace. destruct verbose; auto. simpl.
  rewrite !forallb_app. rewrite !andb_true_iff. repeat split; auto.
  - rewrite forallb_forall. intros x Hx. apply in_map_iff in Hx.
    now destruct Hx as (kv & <- & _).
  - unfold preview_body. destruct data as [[|]|]; auto; now destruct (truthy json_data).
Qed.

(** Whatever the transport does, short of raising something that is not
    an [Exception], [make_request] returns, having sent one request. *)
Lemma make_request_returns method url headers data json_data verbose w :
  allocated w headers ->
  (forall e, requests_request (request_of method url w headers data json_data) = inr e ->
             isinstance e Exception = true) ->
  exists post,
    make_request lim upper requests_request method url headers data json_data verbose w
    = (Ret tt,
       mkWorld (heap_after_preview w headers json_data verbose)
               (trace w
                  ++ preview_trace method url (user_headers w headers) data json_data verbose
                  ++ Request (request_of method url w headers data json_data) :: post))
    /\ forallb is_print post = true.
Proof.
  intros Hal Hexc.
  destruct (failure_of (requests_request (request_of method url w headers data json_data)))
    as [e|] eqn:Hf.
  - exists (error_report e). split; [|apply error_report_prints].
    apply make_request_failure; auto.
    unfold failure_of in Hf.
    destruct (requests_request _) as [r|e'] eqn:Hq.
    + eapply failure_is_exception; eauto.
    + injection Hf as <-. auto.
  - unfold failure_of in Hf.
    destruct (requests_request _) as [r|e'] eqn:Hq; [|discriminate].
    destruct (int_div_10_cases (raw_version r)) as [[version Hv]|Hv].
    + eexists. split; [apply make_request_success with (version := version); eauto|].
      simpl. rewrite forallb_app. rewrite andb_true_iff. split; auto.
      rewrite forallb_forall. intros x Hx. apply in_map_iff in Hx.
      now destruct Hx as (kv & <- & _).
    + exists [Print banner_response;
              Print (unknown_error_banner ++ lit "int too large to convert to float")].
      split; [|reflexivity].
      unfold make_request.
      erewrite run_bind by apply preview_run.
      erewrite run_try_caught;
        [ | unfold send_and_render;
            erewrite run_bind;
            [ rewrite Hf;
              erewrite run_bind by reflexivity;
              erewrite run_bind by apply run_print;
              erewrite run_bind_raise by apply Hv; reflexivity
            | rewrite call_requests_run; rewrite deref_after_preview by exact Hal;
              unfold request_of in Hq; rewrite Hq; reflexivity ]
          | reflexivity ].
      rewrite run_print. simpl. unfold request_of.
      f_equal. f_equal. rewrite <- !app_assoc. reflexivity.
Qed.

(** An exception that is not an [Exception] passes through. *)
Lemma make_request_escapes method url headers data json_data verbose w e :
  allocated w headers ->
  requests_request (request_of method url w headers data json_data) = inr e ->
  isinstance e Exception = false ->
  make_request lim upper requests_request method url headers data json_data verbose w
  = (Raise e,
     mkWorld (heap_after_preview w headers json_data verbose)
             (trace w
                ++ preview_trace method url (user_headers w headers) data json_data verbose
                ++ [Request (request_of method url w headers data json_data)])).
Proof.
  intros Hal Hq HE. unfold make_request.
  erewrite run_bind by apply preview_run.
  erewrite run_try_escapes;
    [ | unfold send_and_render; erewrite run_bind_raise; [reflexivity|];
        rewrite call_requests_run; rewrite deref_after_preview by exact Hal;
        unfold request_of in Hq; rewrite Hq; reflexivity
      | now apply classify_escapes ].
  simpl. unfold request_of. now rewrite <- !app_assoc.
Qed.

(** In every case: the preview, then one request, then lines of text. *)
Lemma make_request_trace method url headers data json_data verbose w :
  allocated w headers ->
  exists res post,
    make_request lim upper requests_request method url headers data json_data verbose w
    = (res,
       mkWorld (heap_after_preview w headers json_data verbose)
               (trace w
                  ++ preview_trace method url (user_headers w headers) data json_data verbose
                  ++ Request (request_of method url w headers data json_data) :: post))
    /\ forallb is_print post = true.
Proof.
  intros Hal.
  destruct (requests_request (request_of method url w headers data json_data))
    as [r|e] eqn:Hq.
  - destruct (@make_request_returns method url headers data json_data verbose w Hal)
      as (post & H & Hp); [intros e; rewrite Hq; discriminate|].
    now exists (Ret tt), post.
  - destruct (isinstance e Exception) eqn:HE.
    + destruct (@make_request_returns method url headers data json_data verbose w Hal)
        as (post & H & Hp); [intros e'; rewrite Hq; congruence|].
      now exists (Ret tt), post.
    + exists (Raise e), []. split; auto. now apply make_request_escapes.
Qed.

End Behaviour.


(* ===================================================================== *)
(** ** Facts about dict assignment *)
(* ===================================================================== *)

Section DictFacts.

Variable V : Type.
Implicit Types (d : dict V) (k : str) (v : V).

(** Assignment either appends a new key or replaces the value of the
    present key where it stands. *)
Lemma dict_set_cases k v d :
  (~ In k (dict_keys d) /\ dict_set k v d = d ++ [(k, v)])
  \/ (exists a old b, d = a ++ (k, old) :: b /\ ~ In k (dict_keys a)
                      /\ dict_set k v d = a ++ (k, v) :: b).
Proof.
  induction d as [|[k' v'] r IH]; simpl.
  - left. split; auto.
  - destruct (str_eqb k' k) eqn:E.
    + apply str_eqb_eq in E. subst k'. right. exists [], v', r. simpl. auto.
    + apply str_eqb_neq in E.
      destruct IH as [[Hn ->]|(a & old & b & -> & Hn & ->)].
      * left. split; auto. simpl. tauto.
      * right. exists ((k', v') :: a), old, b. simpl. repeat split; auto. tauto.
Qed.

Lemma dict_set_fresh k v d :
  ~ In k (dict_keys d) -> dict_set k v d = d ++ [(k, v)].
Proof.
  intros Hn. destruct (dict_set_cases k v d) as [[_ H]|(a & old & b & -> & _ & _)]; auto.
  exfalso. apply Hn. unfold dict_keys. rewrite map_app. apply in_or_app. right. now left.
Qed.

Lemma dict_keys_set_present k v d :
  In k (dict_keys d) -> dict_keys (dict_set k v d) = dict_keys d.
Proof.
  intros Hin. destruct (dict_set_cases k v d) as [[Hn _]|(a & old & b & -> & _ & ->)].
  - contradiction.
  - unfold dict_keys. now rewrite !map_app.
Qed.

Lemma dict_get_set_same k v d : dict_get k (dict_set k v d) = Some v.
Proof.
  induction d as [|[k' v'] r IH]; simpl.
  - now rewrite str_eqb_refl.
  - destruct (str_eqb k' k) eqn:E; simpl; now rewrite E.
Qed.

Lemma dict_get_set_other k k' v d :
  k <> k' -> dict_get k' (dict_set k v d) = dict_get k' d.
Proof.
  intros Hne. induction d as [|[k0 v0] r IH]; simpl.
  - apply str_eqb_neq in Hne. now rewrite Hne.
  - destruct (str_eqb k0 k) eqn:E; simpl.
    + apply str_eqb_eq in E. subst k0. apply str_eqb_neq in Hne. now rewrite Hne.
    + now rewrite IH.
Qed.

Definition assign_all (ps : list (str * V)) (d : dict V) : dict V :=
  fold_left (fun d kv => dict_set (fst kv) (snd kv) d) ps d.

Lemma dict_of_pairs_assign ps : dict_of_pairs ps = assign_all ps [].
Proof. reflexivity. Qed.

(** Distinct new keys are appended in the order of the assignments. *)
Lemma assign_all_distinct ps d :
  NoDup (dict_keys d ++ map fst ps) -> assign_all ps d = d ++ ps.
Proof.
  revert d; induction ps as [|[k v] ps IH]; intros d Hnd; simpl.
  - now rewrite app_nil_r.
  - assert (Hk : ~ In k (dict_keys d)).
    { apply NoDup_remove_2 in Hnd. intros H. apply Hnd. apply in_or_app. now left. }
    rewrite dict_set_fresh by exact Hk.
    unfold assign_all in IH. rewrite IH.
    + now rewrite <- app_assoc.
    + unfold dict_keys in *. rewrite map_app. simpl. now rewrite <- app_assoc.
Qed.

(** Each key ends with the value of its last assignment. *)
Lemma dict_get_assign_all k ps d :
  dict_get k (assign_all ps d)
  = match dict_get k (rev ps) with
    | Some v => Some v
    | None => dict_get k d
    end.
Proof.
  assert (Hsnoc : forall (l : dict V) k0 v0,
             dict_get k (l ++ [(k0, v0)])
             = match dict_get k l with
               | Some v => Some v
               | None => if str_eqb k0 k then Some v0 else None
               end).
  { induction l as [|[k1 v1] l IHl]; intros k0 v0; simpl; auto.
    destruct (str_eqb k1 k); auto. }
  revert d; induction ps as [|[k0 v0] ps IH]; intros d; simpl; auto.
  unfold assign_all in IH. rewrite IH, Hsnoc.
  destruct (dict_get k (rev ps)); auto.
  destruct (str_eqb k0 k) eqn:E.
  - apply str_eqb_eq in E. subst. apply dict_get_set_same.
  - apply str_eqb_neq in E. now apply dict_get_set_other.
Qed.

(** The keys of a list in the order of their first occurrences. *)
Fixpoint first_occurrences (ks : list str) : list str :=
  match ks with
  | [] => []
  | k :: r => k :: filter (fun k' => negb (str_eqb k k')) (first_occurrences r)
  end.

Lemma filter_comm (A : Type) (p q : A -> bool) (l : list A) :
  filter p (filter q l) = filter q (filter p l).
Proof.
  induction l as [|x l IH]; simpl; auto.
  destruct (p x) eqn:Hp, (q x) eqn:Hq; simpl; rewrite ?Hp, ?Hq, IH; auto.
Qed.

Lemma filter_idem (A : Type) (p : A -> bool) (l : list A) :
  filter p (filter p l) = filter p l.
Proof.
  induction l as [|x l IH]; simpl; auto.
  destruct (p x) eqn:Hp; simpl; rewrite ?Hp, IH; auto.
Qed.

Lemma first_occurrences_drop_filtered k a b :
  filter (fun k' => negb (str_eqb k k')) (first_occurrences (a ++ k :: b))
  = filter (fun k' => negb (str_eqb k k')) (first_occurrences (a ++ b)).
Proof.
  induction a as [|x a IH]; simpl.
  - rewrite str_eqb_refl. simpl. apply filter_idem.
  - destruct (negb (str_eqb k x)); [f_equal|];
      rewrite (filter_comm _ _ (fun k' => negb (str_eqb x k'))), IH;
      apply filter_comm.
Qed.

Lemma first_occurrences_repeat k a b :
  In k a -> first_occurrences (a ++ k :: b) = first_occurrences (a ++ b).
Proof.
  induction a as [|x a IH]; simpl; [tauto|].
  intros [->|Hin].
  - f_equal. apply first_occurrences_drop_filtered.
  - now rewrite IH.
Qed.

(** The keys stand in the order of their first assignments. *)
Lemma dict_keys_assign_all ps d :
  first_occurrences (dict_keys (assign_all ps d))
  = first_occurrences (dict_keys d ++ map fst ps).
Proof.
  revert d; induction ps as [|[k v] ps IH]; intros d; simpl.
  - now rewrite app_nil_r.
  - unfold assign_all in IH. rewrite IH.
    destruct (in_dec (list_eq_dec N.eq_dec) k (dict_keys d)) as [Hin|Hn].
    + rewrite dict_keys_set_present by exact Hin. symmetry.
      now apply first_occurrences_repeat.
    + rewrite dict_set_fresh by exact Hn. unfold dict_keys. rewrite map_app. simpl.
      now rewrite <- app_assoc.
Qed.

Lemma first_occurrences_NoDup ks : NoDup ks -> first_occurrences ks = ks.
Proof.
  induction 1 as [|k ks Hn Hnd IH]; simpl; auto.
  rewrite IH. f_equal.
  apply forallb_filter_id. rewrite forallb_forall. intros x Hx.
  apply negb_true_iff, str_eqb_neq. congruence.
Qed.

Lemma assign_all_keys_NoDup ps d :
  NoDup (dict_keys d) -> NoDup (dict_keys (assign_all ps d)).
Proof.
  revert d; induction ps as [|[k v] ps IH]; intros d Hnd; simpl; auto.
  apply IH. simpl.
  destruct (dict_set_cases k v d) as [[Hn ->]|(a & old & b & -> & _ & ->)].
  - unfold dict_keys in *. rewrite map_app. simpl.
    apply NoDup_app; auto.
    + constructor; [tauto|constructor].
    + intros x Hx [<-|[]]. contradiction.
  - unfold dict_keys in *. now rewrite map_app in *.
Qed.

Lemma dict_keys_of_pairs (ps : list (str * V)) :
  dict_keys (dict_of_pairs ps) = first_occurrences (map fst ps).
Proof.
  rewrite dict_of_pairs_assign.
  rewrite <- (first_occurrences_NoDup (dict_keys (assign_all ps [])))
    by (apply assign_all_keys_NoDup; constructor).
  apply dict_keys_assign_all.
Qed.

End DictFacts.

Arguments assign_all {V} ps d.

(* ===================================================================== *)
(** ** Header tokens *)
(* ===================================================================== *)

Section Headers.

Open Scope py_scope.

Definition colon : N := 58%N.

Lemma split1_some sep s k v :
  split1 sep s = Some (k, v) <-> s = k ++ sep :: v /\ ~ In sep k.
Proof.
  revert k v; induction s as [|c r IH]; intros k v; simpl.
  - split; [discriminate|]. intros [H _]. now destruct k.
  - destruct (N.eqb_spec c sep) as [->|Hne].
    + split.
      * intros H; injection H as <- <-. split; auto.
      * intros [H Hk]. destruct k as [|c' k]; simpl in *.
        -- now injection H as <-.
        -- injection H as <- _. tauto.
    + destruct (split1 sep r) as [[a b]|] eqn:Hs.
      * split.
        -- intros H; injection H as <- <-.
           destruct (proj1 (IH a b) eq_refl) as [-> Ha]. split; auto.
           simpl. intros [?|?]; [congruence|tauto].
        -- intros [H Hk]. destruct k as [|c' k]; simpl in *.
           ++ injection H as -> _. congruence.
           ++ injection H as <- Hr.
              assert (Hab : Some (a, b) = Some (k, v)) by (apply IH; tauto).
              now injection Hab as -> ->.
      * split; [discriminate|].
        intros [H Hk]. destruct k as [|c' k]; simpl in *.
        -- injection H as -> _. congruence.
        -- injection H as <- Hr.
           assert (Hab : None = Some (k, v)) by (apply IH; tauto).
           discriminate.
Qed.

Lemma split1_none sep s : split1 sep s = None <-> ~ In sep s.
Proof.
  induction s as [|c r IH]; simpl; [tauto|].
  destruct (N.eqb_spec c sep) as [->|Hne].
  - split; [discriminate|tauto].
  - destruct (split1 sep r) as [[a b]|].
    + split; [discriminate|]. intros H. exfalso. apply H. right.
      destruct (in_dec N.eq_dec sep r) as [?|Hn]; auto.
      apply IH in Hn. discriminate.
    + split; auto. intros _ [?|?]; [congruence|]. now apply IH.
Qed.

(** What [strip] removes and what it leaves: neither the first nor the
    last character of the result, if any, is whitespace. *)
Definition no_space_at_ends (s : str) : Prop :=
  (forall c, hd_error s = Some c -> isspace c = false)
  /\ (forall c, hd_error (rev s) = Some c -> isspace c = false).

Lemma lstrip_spec s :
  exists a, s = a ++ lstrip s /\ forallb isspace a = true
            /\ forall c, hd_error (lstrip s) = Some c -> isspace c = false.
Proof.
  induction s as [|c r (a & Ha & Hsp & Hhd)]; simpl.
  - exists []. repeat split; auto. discriminate.
  - destruct (isspace c) eqn:Hc.
    + exists (c :: a). simpl. rewrite Hc, Hsp. repeat split; auto. congruence.
    + exists []. simpl. repeat split; auto. congruence.
Qed.

Lemma strip_spec s :
  exists a b, s = a ++ strip s ++ b
              /\ forallb isspace a = true /\ forallb isspace b = true
              /\ no_space_at_ends (strip s).
Proof.
  unfold strip, rstrip.
  destruct (lstrip_spec s) as (a & Ha & Hsa & Hhd).
  destruct (lstrip_spec (rev (lstrip s))) as (b & Hb & Hsb & Hlast).
  set (m := lstrip (rev (lstrip s))) in *.
  assert (Hm : lstrip s = rev m ++ rev b)
    by (rewrite <- rev_app_distr, <- Hb; now rewrite rev_involutive).
  exists a, (rev b). repeat split.
  - rewrite Ha at 1. now rewrite Hm.
  - exact Hsa.
  - rewrite forallb_forall in *. intros x Hx. apply Hsb. now apply in_rev.
  - intros c Hc. apply Hhd. rewrite Hm.
    destruct (rev m); simpl in *; congruence.
  - intros c Hc. apply Hlast. now rewrite rev_involutive in Hc.
Qed.

(** A text without whitespace at its ends is left as it is. *)
Lemma lstrip_fixed s :
  (forall c, hd_error s = Some c -> isspace c = false) -> lstrip s = s.
Proof. destruct s as [|c r]; simpl; auto. intros H. now rewrite (H c). Qed.

Lemma strip_fixed s : no_space_at_ends s -> strip s = s.
Proof.
  intros [H1 H2]. unfold strip, rstrip.
  rewrite (lstrip_fixed _ H1), (lstrip_fixed _ H2). apply rev_involutive.
Qed.

(** Key and value of a token, [None] for a token without colon. *)
Definition header_entry (t : str) : option (str * str) :=
  match split1 colon t with
  | Some (k, v) => Some (strip k, strip v)
  | None => None
  end.

(** The entries of the tokens that have a colon, in token order. *)
Definition header_entries (tokens : list str) : list (str * str) :=
  flat_map (fun t => match header_entry t with Some e => [e] | None => [] end) tokens.

(** The warnings for the tokens that have none, in token order. *)
Definition header_warnings (tokens : list str) : list event :=
  flat_map (fun t => match header_entry t with
                     | Some _ => []
                     | None => [Print (header_warning t)]
                     end) tokens.

Lemma header_entry_some t k v :
  header_entry t = Some (k, v)
  <-> exists a b, t = a ++ colon :: b /\ ~ In colon a /\ k = strip a /\ v = strip b.
Proof.
  unfold header_entry. split.
  - destruct (split1 colon t) as [[a b]|] eqn:E; [|discriminate].
    intros H; injection H as <- <-. apply split1_some in E. exists a, b. tauto.
  - intros (a & b & Ht & Hn & -> & ->).
    assert (E : split1 colon t = Some (a, b)) by (apply split1_some; auto).
    now rewrite E.
Qed.

Lemma header_entry_none t : header_entry t = None <-> ~ In colon t.
Proof.
  unfold header_entry. rewrite <- split1_none.
  destruct (split1 colon t) as [[a b]|]; split; congruence.
Qed.

Lemma update_same (h : list (dict str)) l : update l (nth l h []) h = h.
Proof.
  revert l; induction h as [|x h IH]; intros [|l]; simpl; auto. now rewrite IH.
Qed.

Lemma update_update (h : list (dict str)) l x y :
  update l x (update l y h) = update l x h.
Proof.
  revert l; induction h as [|z h IH]; intros [|l]; simpl; auto. now rewrite IH.
Qed.

Lemma add_header_run l t w :
  add_header l t w
  = (Ret tt,
     match header_entry t with
     | Some (k, v) => mkWorld (update l (dict_set k v (nth l (heap w) [])) (heap w)) (trace w)
     | None => mkWorld (heap w) (trace w ++ [Print (header_warning t)])
     end).
Proof.
  unfold add_header, header_entry.
  destruct (split1 colon t) as [[k v]|] eqn:E; unfold colon in E; rewrite E.
  - reflexivity.
  - erewrite run_try_caught; [apply run_print | reflexivity | reflexivity].
Qed.

Lemma add_headers_run tokens l w :
  (l < length (heap w))%nat ->
  for_each tokens (add_header l) w
  = (Ret tt,
     mkWorld (update l (assign_all (header_entries tokens) (nth l (heap w) [])) (heap w))
             (trace w ++ header_warnings tokens)).
Proof.
  revert w; induction tokens as [|t tokens IH]; intros w Hl; simpl.
  - rewrite update_same, app_nil_r. now destruct w.
  - erewrite run_bind by apply add_header_run.
    destruct (header_entry t) as [[k v]|]; rewrite IH; simpl.
    + rewrite nth_update_same by exact Hl. now rewrite update_update.
    + now rewrite update_length.
    + now rewrite <- app_assoc.
    + exact Hl.
Qed.

End Headers.

(* ===================================================================== *)
(** ** What [main] does before the request *)
(* ===================================================================== *)

Section MainFacts.

Open Scope py_scope.
Open Scope Z_scope.

Variable lim : limits.
Variable upper : str -> str.
Variable requests_request : request -> Response + exc.
Variable open_read : str -> read_result.

(** How resolving the JSON body ends: with a body ([JNull] when there is
    none), with a message and [sys.exit(1)], or with an exception that no
    clause catches. *)
Inductive preflight :=
| Body (v : value)
| Fatal (message : str)
| Unhandled (e : exc).

Definition preflight_of (args : Args) : preflight :=
  match json_data args with
  | Some (c :: s) =>
    match loads lim (c :: s) with
    | Decoded v => Body v
    | DecodeError => Fatal invalid_json_message
    | Refusal e => Unhandled (refusal_exc e)
    end
  | _ =>
    match file args with
    | Some (c :: p) =>
      match open_read (c :: p) with
      | FileText t =>
        match loads lim (universal_newlines t) with
        | Decoded v => Body v
        | DecodeError => Fatal (invalid_file_message (c :: p))
        | Refusal e => Unhandled (refusal_exc e)
        end
      | FileError NoSuchFile => Fatal (file_not_found_message (c :: p))
      | FileError e => Unhandled (new_exc (io_error_class e) [])
      end
    | _ => Body JNull
    end
  end.

Definition exit_1 : exc := mkExc SystemExit [] None 1.

Lemma resolve_json_body_run args w :
  resolve_json_body lim open_read args w
  = match preflight_of args with
    | Body v => (Ret v, w)
    | Fatal m => (Raise exit_1, mkWorld (heap w) (trace w ++ [Print m]))
    | Unhandled e => (Raise e, w)
    end.
Proof.
  unfold resolve_json_body, preflight_of, json_loads, load_json_file, json_loads.
  destruct (json_data args) as [[|c s]|]; simpl.
  2:{ destruct (loads lim (c :: s)) as [v| |e]; [reflexivity| |].
      - erewrite run_try_caught; [| reflexivity | reflexivity].
        erewrite run_bind by apply run_print. reflexivity.
      - erewrite run_try_escapes; [reflexivity | reflexivity |].
        now destruct e as [limit digits|[|]|msg]. }
  all: destruct (file args) as [[|c p]|]; simpl; try reflexivity.
  all: destruct (open_read (c :: p)) as [t|e].
  all: try (destruct (loads lim (universal_newlines t)) as [v| |e]; [reflexivity| |];
            [ erewrite run_try_caught; [| reflexivity | reflexivity];
              erewrite run_bind by apply run_print; reflexivity
            | erewrite run_try_escapes; [reflexivity | reflexivity |];
              now destruct e as [limit digits|[|]|msg] ]).
  all: destruct e;
    try (erewrite run_try_caught; [| reflexivity | reflexivity];
         erewrite run_bind by apply run_print; reflexivity);
    reflexivity.
Qed.

(** What [main] lets through is an [Exception] and no [SystemExit]: the
    process ends with status 1. *)
Lemma unhandled_exit_status args e :
  preflight_of args = Unhandled e -> exit_status (Raise e) = 1.
Proof.
  unfold preflight_of.
  destruct (json_data args) as [[|c s]|].
  2:{ destruct (loads lim (c :: s)) as [v| |x]; try discriminate.
      intros H. injection H as <-. now destruct x as [limit digits|[|]|msg]. }
  all: destruct (file args) as [[|c p]|]; try discriminate.
  all: destruct (open_read (c :: p)) as [t|x].
  all: try (destruct (loads lim (universal_newlines t)) as [v| |y]; try discriminate;
            intros H; injection H as <-; now destruct y as [limit digits|[|]|msg]).
  all: destruct x; try discriminate; intros H; injection H as <-; reflexivity.
Qed.

Definition tokens_of (args : Args) : list str :=
  match header args with
  | Some l => l
  | None => []
  end.

(** The state when [main] reaches line 140: one dict object, the headers,
    and the warnings printed so far. *)
Definition world_at_140 (args : Args) : world :=
  mkWorld [dict_of_pairs (header_entries (tokens_of args))]
          (header_warnings (tokens_of args)).

Lemma main_run args :
  main lim upper requests_request open_read args empty_world
  = match preflight_of args with
    | Body v =>
      make_request lim upper requests_request (method args) (url args) (Some O) (data args) v
                   (verbose args) (world_at_140 args)
    | Fatal m =>
      (Raise exit_1,
       mkWorld (heap (world_at_140 args)) (trace (world_at_140 args) ++ [Print m]))
    | Unhandled e => (Raise e, world_at_140 args)
    end.
Proof.
  unfold main.
  erewrite run_bind by reflexivity. simpl.
  assert (Hloop :
    match header args with
    | Some (h :: hs) => for_each (h :: hs) (add_header O)
    | _ => ret tt
    end (mkWorld [[]] []) = (Ret tt, world_at_140 args)).
  { unfold world_at_140, tokens_of.
    destruct (header args) as [[|h hs]|]; try reflexivity.
    rewrite add_headers_run by (simpl; lia). reflexivity. }
  erewrite run_bind by exact Hloop.
  unfold bind at 1. rewrite resolve_json_body_run.
  destruct (preflight_of args); reflexivity.
Qed.

End MainFacts.

(* ===================================================================== *)
(** ** Sample inputs *)
(* ===================================================================== *)

Module Samples.

Open Scope N_scope.

(** [str.upper] on ASCII text. *)
Definition ascii_upper (s : str) : str :=
  map (fun c => if (97 <=? c) && (c <=? 122) then c - 32 else c) s.

(** A literal in which ['] stands for the double quote. *)
Definition qlit (s : string) : str :=
  map (fun c => if c =? 39 then 34 else c) (lit s).

Definition items_url : str := lit "http://example.com/items".
Definition ping_url : str := lit "http://example.com/ping".

(** Status 404, reason "Not Found", a JSON body. *)
Definition not_found : Response :=
  mkResponse 404 (lit "Not Found") items_url
             [(lit "Content-Type", lit "application/json")]
             (qlit "{'error':'missing'}") 11.

(** Status 200 with a JSON body. *)
Definition pong : Response :=
  mkResponse 200 (lit "OK") ping_url
             [(lit "Content-Type", lit "application/json")]
             (qlit "{'ok':true}") 11.

(** Status 204 without body. *)
Definition no_content : Response :=
  mkResponse 204 (lit "No Content") items_url [] [] 11.

Definition server (r : Response) (_ : request) : Response + exc := inl r.

Definition refused : exc :=
  mkExc ConnectionError (lit "Connection refused") None 0.

Definition unreachable (_ : request) : Response + exc := inr refused.

Definition no_files (_ : str) : read_result := FileError NoSuchFile.

Definition one_file (path text : str) (p : str) : read_result :=
  if str_eqb p path then FileText text else FileError NoSuchFile.

Definition name_x : value := JDict [(lit "name", JStr (lit "x"))].

(** The limits [json.loads] meets when called from the top level of
    CPython 3.11 as it starts: 4300 digits; 995 of the 1000 levels of
    recursion; building a [JSONDecodeError] takes three levels, and the
    call of [parse_constant] one. *)
Definition no_room : str := lit "maximum recursion depth exceeded".

Definition no_room_in_call : str :=
  lit "maximum recursion depth exceeded while calling a Python object".

Definition py311 : limits :=
  mkLimits 4300 995
           (fun d => match d with
                     | 0 | 2 => Some no_room_in_call
                     | 1 => Some no_room
                     | _ => None
                     end%nat)
           (fun d => match d with
                     | 0 => Some no_room_in_call
                     | _ => None
                     end%nat).

(** A state with one dict object holding a user's [Content-Type] and one
    more header. *)
Definition typed_world : world :=
  mkWorld [[(lit "Content-Type", lit "text/plain"); (lit "X-A", lit "1")]] [].

(** A state with one dict object, empty: the headers [main] passes when
    no [-H] is given. *)
Definition fresh_world : world := mkWorld [[]] [].

End Samples.
Import Samples.

(* ===================================================================== *)
(** ** The claims *)
(* ===================================================================== *)

Section Claims.

Open Scope Z_scope.

(** *** C1: the HTTP error path *)

Lemma http_error_status r :
  400 <= status_code r < 600 ->
  raise_for_status r = Some (mkExc HTTPError (http_error_msg r) (Some r) 0)
  /\ exists kind,
       http_error_msg r
       = str_of_Z (status_code r) ++ kind ++ reason r ++ lit " for url: " ++ resp_url r.
Proof.
  intros [H1 H2]. unfold raise_for_status, http_error_msg.
  apply Z.leb_le in H1. rewrite H1. simpl.
  destruct (status_code r <? 500) eqn:E5.
  - split; [|now exists (lit " Client Error: ")].
    now destruct (str_of_Z (status_code r)).
  - assert (E : (500 <=? status_code r) && (status_code r <? 600) = true).
    { apply Z.ltb_ge in E5. apply andb_true_iff. split; [apply Z.leb_le|apply Z.ltb_lt]; lia. }
    rewrite E. split; [|now exists (lit " Server Error: ")].
    now destruct (str_of_Z (status_code r)).
Qed.

Lemma http_error_not_ok r : 400 <= status_code r < 600 -> Response_bool r = false.
Proof.
  intros H. unfold Response_bool, ok. now rewrite (proj1 (http_error_status r H)).
Qed.

(** C1 (the code departs from the claim). For every response with a
    status from 400 to 599, [make_request] takes the HTTP error path and
    prints the banner with [str(e)], which holds the status code and the
    reason; but nothing follows the banner: the body text is not printed,
    because [if e.response:] tests the truth value of a response, which is
    false for every such status. *)
Theorem C1_http_error_prints_banner_only
    lim upper requests_request method url headers data json_data verbose w r :
  allocated w headers ->
  requests_request (request_of method url w headers data json_data) = inl r ->
  400 <= status_code r < 600 ->
  exists w' kind,
    make_request lim upper requests_request method url headers data json_data verbose w
    = (Ret tt, w')
    /\ trace w'
       = trace w
           ++ preview_trace upper method url (user_headers w headers) data json_data verbose
           ++ [Request (request_of method url w headers data json_data);
               Print (http_error_banner ++ str_of_Z (status_code r) ++ kind ++ reason r
                        ++ lit " for url: " ++ resp_url r)].
Proof.
  intros Hal Hq Hs.
  destruct (http_error_status r Hs) as [Hr [kind Hmsg]].
  eexists; exists kind. split.
  - apply make_request_failure; auto.
    + unfold failure_of. rewrite Hq. exact Hr.
    + reflexivity.
  - simpl. unfold error_report, outcome_of. simpl.
    rewrite (http_error_not_ok r Hs), Hmsg. reflexivity.
Qed.

Lemma C1_witness :
  allocated fresh_world (Some O)
  /\ server not_found
       (request_of (lit "POST") items_url fresh_world (Some O) None name_x)
     = inl not_found
  /\ 400 <= status_code not_found < 600
  /\ exists w' kind,
       make_request py311 ascii_upper (server not_found) (lit "POST") items_url (Some O) None
                    name_x false fresh_world
       = (Ret tt, w')
       /\ trace w'
          = trace fresh_world
              ++ preview_trace ascii_upper (lit "POST") items_url
                               (user_headers fresh_world (Some O)) None name_x false
              ++ [Request (request_of (lit "POST") items_url fresh_world (Some O)
                                      None name_x);
                  Print (http_error_banner ++ str_of_Z (status_code not_found) ++ kind
                           ++ reason not_found ++ lit " for url: " ++ resp_url not_found)].
Proof.
  split; [simpl; lia|]. split; [reflexivity|]. split; [simpl; lia|].
  apply (@C1_http_error_prints_banner_only py311 ascii_upper (server not_found) (lit "POST")
           items_url (Some O) None name_x false fresh_world not_found);
    [simpl; lia | reflexivity | simpl; lia].
Defined.

(** The whole program on [POST http://example.com/items -j '{"name":"x"}']
    answered with 404 "Not Found" and the body [{"error":"missing"}]: the
    notice, the request, the banner, and no line with the body. *)
Example not_found_run :
  run py311 ascii_upper (server not_found) no_files
      (mkArgs (lit "POST") items_url None None (Some (qlit "{'name':'x'}")) None false)
  = (0,
     [Print (sending_line (lit "POST") items_url);
      Request (mkRequest (lit "POST") items_url (Some []) None name_x 10);
      Print (http_error_banner
               ++ lit "404 Client Error: Not Found for url: http://example.com/items")]).
Proof. vm_compute. reflexivity. Qed.

(** *** C7: classification of failures *)

Lemma raise_for_status_none r :
  raise_for_status r = None <-> ~ (400 <= status_code r < 600).
Proof.
  split.
  - intros H Hs. apply http_error_status in Hs. destruct Hs as [Hs _]. congruence.
  - intros H. unfold raise_for_status, http_error_msg.
    destruct (400 <=? status_code r) eqn:E4; simpl.
    + apply Z.leb_le in E4.
      destruct (status_code r <? 500) eqn:E5; [apply Z.ltb_lt in E5; lia|].
      apply Z.ltb_ge in E5.
      destruct (500 <=? status_code r) eqn:E5'; simpl; auto.
      destruct (status_code r <? 600) eqn:E6; auto.
      apply Z.ltb_lt in E6. lia.
    + apply Z.leb_gt in E4.
      destruct (500 <=? status_code r) eqn:E5'; simpl; auto.
      apply Z.leb_le in E5'. lia.
Qed.

(** A response that passes [raise_for_status] is announced as a response,
    right after the request. *)
Lemma make_request_accepts lim upper requests_request method url headers data json_data
    verbose w r :
  allocated w headers ->
  requests_request (request_of method url w headers data json_data) = inl r ->
  raise_for_status r = None ->
  exists w' post,
    make_request lim upper requests_request method url headers data json_data verbose w
    = (Ret tt, w')
    /\ trace w'
       = trace w
           ++ preview_trace upper method url (user_headers w headers) data json_data verbose
           ++ Request (request_of method url w headers data json_data)
           :: Print banner_response :: post
    /\ forallb is_print post = true.
Proof.
  intros Hal Hq Hok.
  destruct (int_div_10_cases (raw_version r)) as [[version Hv]|Hv].
  - eexists; eexists. split; [eapply make_request_success; eauto|]. split.
    + simpl. reflexivity.
    + simpl. rewrite forallb_app. apply andb_true_iff. split; auto.
      rewrite forallb_forall. intros x Hx. apply in_map_iff in Hx.
      now destruct Hx as (kv & <- & _).
  - eexists; exists [Print (unknown_error_banner ++ lit "int too large to convert to float")].
    split; [|split; [|reflexivity]].
    + unfold make_request.
      erewrite run_bind by apply preview_run.
      erewrite run_try_caught;
        [ | unfold send_and_render;
            erewrite run_bind;
            [ rewrite Hok;
              erewrite run_bind by reflexivity;
              erewrite run_bind by apply run_print;
              erewrite run_bind_raise by apply Hv; reflexivity
            | rewrite call_requests_run; rewrite deref_after_preview by exact Hal;
              unfold request_of in Hq; rewrite Hq; reflexivity ]
          | reflexivity ].
      rewrite run_print. reflexivity.
    + simpl. unfold request_of. rewrite <- !app_assoc. reflexivity.
Qed.

(** C7. A transport call fails when it raises or when the response it
    returns has a status from 400 to 599; statuses from 100 to 399 are
    taken as success. A failure is reported as exactly one of
    [HttpStatusError], [NetworkError], [UnknownError]: its banner is
    printed once, directly after the one request that was sent, and
    [make_request] returns normally. *)
Theorem C7_failures_classified
    lim upper requests_request method url headers data json_data verbose w :
  allocated w headers ->
  (forall r,
     requests_request (request_of method url w headers data json_data) = inl r ->
     (400 <= status_code r < 600 ->
      exists e,
        failure_of (requests_request (request_of method url w headers data json_data))
        = Some e
        /\ outcome_of e = HttpStatusError)
     /\ (100 <= status_code r < 400 ->
         exists w' post,
           make_request lim upper requests_request method url headers data json_data verbose w
           = (Ret tt, w')
           /\ trace w'
              = trace w
                  ++ preview_trace upper method url (user_headers w headers)
                                   data json_data verbose
                  ++ Request (request_of method url w headers data json_data)
                  :: Print banner_response :: post
           /\ forallb is_print post = true))
  /\ (forall e,
        failure_of (requests_request (request_of method url w headers data json_data))
        = Some e ->
        isinstance e Exception = true ->
        exists w' detail,
          make_request lim upper requests_request method url headers data json_data verbose w
          = (Ret tt, w')
          /\ trace w'
             = trace w
                 ++ preview_trace upper method url (user_headers w headers)
                                  data json_data verbose
                 ++ Request (request_of method url w headers data json_data)
                 :: Print (banner_of (outcome_of e) ++ exc_msg e) :: detail
          /\ forallb is_print
               (preview_trace upper method url (user_headers w headers)
                              data json_data verbose) = true
          /\ forallb is_print detail = true
          /\ (outcome_of e <> HttpStatusError -> detail = [])).
Proof.
  intros Hal. split.
  - intros r Hq. split.
    + intros Hs. destruct (http_error_status r Hs) as [Hr _].
      eexists. unfold failure_of. rewrite Hq. split; [exact Hr|reflexivity].
    + intros Hs. apply make_request_accepts with (r := r); auto.
      apply raise_for_status_none. lia.
  - intros e Hf HE. eexists; eexists.
    split; [apply make_request_failure; eassumption|].
    split; [reflexivity|]. split; [apply preview_trace_prints|]. split.
    + pose proof (error_report_prints e) as H. simpl in H. exact H.
    + intros Hne. destruct (outcome_of e); congruence.
Qed.

Lemma C7_witness :
  allocated fresh_world (Some O)
  /\ failure_of (unreachable (request_of (lit "GET") ping_url fresh_world (Some O) None JNull))
     = Some refused
  /\ isinstance refused Exception = true
  /\ exists w' detail,
       make_request py311 ascii_upper unreachable (lit "GET") ping_url (Some O) None JNull false
                    fresh_world
       = (Ret tt, w')
       /\ trace w'
          = trace fresh_world
              ++ preview_trace ascii_upper (lit "GET") ping_url
                               (user_headers fresh_world (Some O)) None JNull false
              ++ Request (request_of (lit "GET") ping_url fresh_world (Some O) None JNull)
              :: Print (banner_of (outcome_of refused) ++ exc_msg refused) :: detail
       /\ forallb is_print
            (preview_trace ascii_upper (lit "GET") ping_url
                           (user_headers fresh_world (Some O)) None JNull false) = true
       /\ forallb is_print detail = true
       /\ (outcome_of refused <> HttpStatusError -> detail = []).
Proof.
  split; [simpl; lia|]. split; [reflexivity|]. split; [reflexivity|].
  apply (proj2 (@C7_failures_classified py311 ascii_upper unreachable (lit "GET") ping_url
                  (Some O) None JNull false fresh_world ltac:(simpl; lia)));
    reflexivity.
Defined.

(** A refused connection is a [NetworkError]. *)
Example refused_run :
  run py311 ascii_upper unreachable no_files
      (mkArgs (lit "GET") ping_url None None None None false)
  = (0,
     [Print (sending_line (lit "GET") ping_url);
      Request (mkRequest (lit "GET") ping_url (Some []) None JNull 10);
      Print (network_error_banner ++ lit "Connection refused")]).
Proof. vm_compute. reflexivity. Qed.

(** *** C4 and C9: a successful response *)

(** [n / 10.0] when [float(n)] returns. *)
Definition version_of (n : Z) : float := SFdiv prec emax (float_of_Z n) (float_of_Z 10).

Lemma int_div_10_fits n w :
  int_fits_float n = true -> int_div_10 n w = (Ret (version_of n), w).
Proof.
  unfold int_fits_float, int_div_10, version_of. rewrite float_ten. unfold truediv.
  destruct (float_of_Z n); try discriminate; reflexivity.
Qed.


Lemma loads_empty lim : loads lim [] = DecodeError.
Proof. reflexivity. Qed.


(** Non-ASCII characters are written as they are. *)
Lemma escape_char_non_ascii c : (128 <= c)%N -> escape_char c = [c].
Proof.
  intros H. unfold escape_char.
  repeat match goal with
         | |- context [N.eqb c ?n] =>
           destruct (N.eqb_spec c n); [lia|]
         end.
  destruct (N.ltb_spec c 32); [lia|reflexivity].
Qed.

(** Each nesting level indents by two more spaces. *)
Lemma newline_indent_step level :
  newline_indent (S level) = newline_indent level ++ lit "  ".
Proof.
  unfold newline_indent, indent.
  replace (2 * S level)%nat with (2 * level + 2)%nat by lia.
  rewrite repeat_app. reflexivity.
Qed.

Example dumps_sample :
  match loads py311 (qlit "{'ok':true,'tags':['é',1.50],'n':null}") with
  | Decoded v => Some (dumps v)
  | _ => None
  end
  = Some (lit "{" ++ nl
          ++ qlit "  'ok': true," ++ nl
          ++ qlit "  'tags': [" ++ nl
          ++ qlit "    'é'," ++ nl
          ++ qlit "    1.5" ++ nl
          ++ qlit "  ]," ++ nl
          ++ qlit "  'n': null" ++ nl
          ++ lit "}").
Proof. vm_compute. reflexivity. Qed.

(** A body of 4301 digits, and the response that carries it. *)
Definition long_number : str := repeat 49%N 4301.





(** [GET http://example.com/ping -v] answered with 200 "OK" and the body
    [{"ok":true}]. *)
Example ping_run :
  run py311 ascii_upper (server pong) no_files
      (mkArgs (lit "get") ping_url None None None None true)
  = (0,
     [Print banner_outgoing;
      Print (lit "> GET http://example.com/ping HTTP/1.1");
      Print headers_title;
      Print separator;
      Request (mkRequest (lit "get") ping_url (Some []) None JNull 10);
      Print banner_response;
      Print (lit "🔗 状态: HTTP/1.1 200 OK");
      Print response_headers_title;
      Print (lit "  Content-Type: application/json");
      Print response_body_title;
      Print (lit "{" ++ nl ++ qlit "  'ok': true" ++ nl ++ lit "}")]).
Proof. vm_compute. reflexivity. Qed.

(** An empty body shows the placeholder. *)
Example no_content_run :
  run py311 ascii_upper (server no_content) no_files
      (mkArgs (lit "DELETE") items_url None None None None false)
  = (0,
     [Print (sending_line (lit "DELETE") items_url);
      Request (mkRequest (lit "DELETE") items_url (Some []) None JNull 10);
      Print banner_response;
      Print (lit "🔗 状态: HTTP/1.1 204 No Content");
      Print response_headers_title;
      Print response_body_title;
      Print no_body]).
Proof. vm_compute. reflexivity. Qed.

(** The version codes below 1000, checked one by one: [n / 10.0] shows as
    the quotient, a point, and the remainder. *)
Definition version_shown (n : Z) : str :=
  str_of_Z (n / 10) ++ lit "." ++ str_of_Z (n mod 10).

Definition version_checked (n : nat) : bool :=
  int_fits_float (Z.of_nat n)
  && str_eqb (float_repr (version_of (Z.of_nat n))) (version_shown (Z.of_nat n)).

Lemma versions_checked : forallb version_checked (seq 0 1000) = true.
Proof. vm_compute. reflexivity. Qed.

Lemma version_repr n :
  0 <= n < 1000 ->
  int_fits_float n = true /\ float_repr (version_of n) = version_shown n.
Proof.
  intros Hn.
  pose proof versions_checked as H. rewrite forallb_forall in H.
  specialize (H (Z.to_nat n)).
  unfold version_checked in H. rewrite Z2Nat.id in H by lia.
  rewrite andb_true_iff, str_eqb_eq in H. apply H.
  apply in_seq. lia.
Qed.

(** C9. For a response with a success status whose version code is
    below 1000, the status line shows [HTTP/], the version code divided by
    ten as major.minor (11 gives 1.1, 10 gives 1.0), then the status code
    and the reason phrase. *)
Theorem C9_status_line_version
    lim upper requests_request method url headers data json_data verbose w r :
  allocated w headers ->
  requests_request (request_of method url w headers data json_data) = inl r ->
  ~ (400 <= status_code r < 600) ->
  0 <= raw_version r < 1000 ->
  exists w' post,
    make_request lim upper requests_request method url headers data json_data verbose w
    = (Ret tt, w')
    /\ trace w'
       = trace w
           ++ preview_trace upper method url (user_headers w headers) data json_data verbose
           ++ Request (request_of method url w headers data json_data)
           :: Print banner_response
           :: Print (lit "🔗 状态: HTTP/"
                       ++ str_of_Z (raw_version r / 10) ++ lit "."
                       ++ str_of_Z (raw_version r mod 10)
                       ++ lit " " ++ str_of_Z (status_code r) ++ lit " " ++ reason r)
           :: post.
Proof.
  intros Hal Hq Hs Hv.
  destruct (version_repr _ Hv) as [Hfit Hrepr].
  eexists; eexists. split.
  - eapply make_request_success; eauto.
    + now apply raise_for_status_none.
    + intros w'. now apply int_div_10_fits.
  - simpl. unfold status_line. rewrite Hrepr. unfold version_shown.
    rewrite <- !app_assoc. reflexivity.
Qed.

Lemma C9_witness :
  allocated fresh_world (Some O)
  /\ server pong (request_of (lit "GET") ping_url fresh_world (Some O) None JNull)
     = inl pong
  /\ ~ (400 <= status_code pong < 600)
  /\ 0 <= raw_version pong < 1000
  /\ exists w' post,
       make_request py311 ascii_upper (server pong) (lit "GET") ping_url (Some O) None JNull
                    false fresh_world
       = (Ret tt, w')
       /\ trace w'
          = trace fresh_world
              ++ preview_trace ascii_upper (lit "GET") ping_url
                               (user_headers fresh_world (Some O)) None JNull false
              ++ Request (request_of (lit "GET") ping_url fresh_world (Some O) None JNull)
              :: Print banner_response
              :: Print (lit "🔗 状态: HTTP/"
                          ++ str_of_Z (raw_version pong / 10) ++ lit "."
                          ++ str_of_Z (raw_version pong mod 10)
                          ++ lit " " ++ str_of_Z (status_code pong) ++ lit " "
                          ++ reason pong)
              :: post.
Proof.
  split; [simpl; lia|]. split; [reflexivity|]. split; [simpl; lia|].
  split; [simpl; lia|].
  apply (@C9_status_line_version py311 ascii_upper (server pong) (lit "GET") ping_url
           (Some O) None JNull false fresh_world pong);
    [simpl; lia | reflexivity | simpl; lia | simpl; lia].
Defined.

(** The codes in use: 0.9, 1.0, 1.1 and 2.0. *)
Example versions_in_use :
  map (fun n => float_repr (version_of n)) [9; 10; 11; 20]
  = [lit "0.9"; lit "1.0"; lit "1.1"; lit "2.0"].
Proof. vm_compute. reflexivity. Qed.


(** *** C6: the headers given to the transport *)

(** C6. Whatever the preview shows and however the call ends,
    [make_request] sends one request, and that request carries the content
    the caller's headers mapping had on entry; the mapping itself is left
    as it was (the preview works on a copy). *)
Theorem C6_transport_receives_original_headers
    lim upper requests_request method url headers data json_data verbose w :
  allocated w headers ->
  exists res w' post,
    make_request lim upper requests_request method url headers data json_data verbose w
    = (res, w')
    /\ trace w'
       = trace w
           ++ preview_trace upper method url (user_headers w headers) data json_data verbose
           ++ Request (mkRequest method url (deref w headers) data json_data 10) :: post
    /\ forallb is_print
         (preview_trace upper method url (user_headers w headers) data json_data verbose)
       = true
    /\ forallb is_print post = true
    /\ deref w' headers = deref w headers.
Proof.
  intros Hal.
  destruct (@make_request_trace lim upper requests_request method url headers data json_data
              verbose w Hal) as (res & post & Hrun & Hpost).
  exists res. eexists. exists post. split; [exact Hrun|].
  split; [reflexivity|]. split; [apply preview_trace_prints|]. split; [exact Hpost|].
  now apply deref_after_preview.
Qed.

Lemma C6_witness :
  allocated typed_world (Some O)
  /\ exists res w' post,
       make_request py311 ascii_upper (server pong) (lit "POST") items_url (Some O) None name_x
                    true typed_world
       = (res, w')
       /\ trace w'
          = trace typed_world
              ++ preview_trace ascii_upper (lit "POST") items_url
                               (user_headers typed_world (Some O)) None name_x true
              ++ Request (mkRequest (lit "POST") items_url (deref typed_world (Some O))
                                    None name_x 10) :: post
       /\ forallb is_print
            (preview_trace ascii_upper (lit "POST") items_url
                           (user_headers typed_world (Some O)) None name_x true)
          = true
       /\ forallb is_print post = true
       /\ deref w' (Some O) = deref typed_world (Some O).
Proof.
  split; [simpl; lia|].
  apply (@C6_transport_receives_original_headers py311 ascii_upper (server pong) (lit "POST")
           items_url (Some O) None name_x true typed_world).
  simpl; lia.
Defined.

(** The preview lists [application/json]; the request carries the user's
    [text/plain]. *)
Example typed_request :
  exists post,
    snd (make_request py311 ascii_upper (server pong) (lit "POST") items_url (Some O) None name_x
                      true typed_world)
    = mkWorld [[(lit "Content-Type", lit "text/plain"); (lit "X-A", lit "1")];
               [(lit "Content-Type", lit "application/json"); (lit "X-A", lit "1")]]
              ([Print banner_outgoing;
                Print (lit "> POST http://example.com/items HTTP/1.1");
                Print headers_title;
                Print (lit ">   Content-Type: application/json");
                Print (lit ">   X-A: 1");
                Print json_body_title;
                Print (lit "{" ++ nl ++ qlit "  'name': 'x'" ++ nl ++ lit "}");
                Print separator;
                Request (mkRequest (lit "POST") items_url
                           (Some [(lit "Content-Type", lit "text/plain");
                                  (lit "X-A", lit "1")])
                           None name_x 10)]
                 ++ post).
Proof. eexists. vm_compute. reflexivity. Qed.

(** *** C5: the headers the preview lists *)

(** The claim as stated fails: with a user's [Content-Type] in first
    place, the injected value takes that place, and the last header line
    of the preview is the user's [X-A]. *)
Lemma C5_counterexample :
  exists w',
    preview ascii_upper (lit "POST") items_url (Some O) None name_x true typed_world
    = (Ret tt, w')
    /\ trace w'
       = [Print banner_outgoing;
          Print (lit "> POST http://example.com/items HTTP/1.1");
          Print headers_title;
          Print (lit ">   Content-Type: application/json");
          Print (lit ">   X-A: 1");
          Print json_body_title;
          Print (lit "{" ++ nl ++ qlit "  'name': 'x'" ++ nl ++ lit "}");
          Print separator]
    /\ last (shown_headers (user_headers typed_world (Some O)) name_x) ([], [])
       <> (content_type, application_json).
Proof.
  eexists. split; [vm_compute; reflexivity|]. split; [reflexivity|].
  vm_compute. discriminate.
Qed.

(** C5, amended. In the verbose preview the listed headers are the
    user's headers with, when the JSON body is truthy, the entry
    [Content-Type: application/json] assigned into them: it is appended
    last when the user gave no key spelled [Content-Type], and otherwise it
    replaces the value of that key where the key stands. A falsy JSON body
    injects nothing. Only the listing is affected: the caller's mapping is
    left as it was. *)
Theorem C5_preview_headers upper method url headers data json_data w :
  allocated w headers ->
  exists w' shown,
    preview upper method url headers data json_data true w = (Ret tt, w')
    /\ trace w'
       = trace w
           ++ [Print banner_outgoing; Print (request_line (upper method) url);
               Print headers_title]
           ++ map (fun kv => Print (preview_header_line kv)) shown
           ++ preview_body data json_data
           ++ [Print separator]
    /\ (truthy json_data = false -> shown = user_headers w headers)
    /\ (truthy json_data = true ->
        ~ In content_type (dict_keys (user_headers w headers)) ->
        shown = user_headers w headers ++ [(content_type, application_json)])
    /\ (truthy json_data = true ->
        forall a old b,
          user_headers w headers = a ++ (content_type, old) :: b ->
          ~ In content_type (dict_keys a) ->
          shown = a ++ (content_type, application_json) :: b)
    /\ deref w' headers = deref w headers.
Proof.
  intros Hal. eexists. exists (shown_headers (user_headers w headers) json_data).
  split; [apply preview_run|]. split; [reflexivity|].
  unfold shown_headers. split; [now intros ->|]. split; [|split].
  - intros -> Hn. now apply dict_set_fresh.
  - intros -> a old b Hhs Hn.
    destruct (dict_set_cases _ content_type application_json (user_headers w headers))
      as [[Hn' _]|(a' & old' & b' & Hhs' & Hn' & ->)].
    + exfalso. apply Hn'. rewrite Hhs. unfold dict_keys. rewrite map_app.
      apply in_or_app. right. now left.
    + rewrite Hhs in Hhs'.
      assert (Ha : a = a').
      { clear - Hhs' Hn Hn'. revert a' Hhs' Hn'.
        induction a as [|[k v] a IH]; intros [|[k' v'] a'] H Hn'; simpl in *.
        - reflexivity.
        - injection H as <- _ _. tauto.
        - injection H as -> _ _. tauto.
        - injection H as <- <- H. f_equal. apply IH; tauto. }
      subst a'. apply app_inv_head in Hhs'. now injection Hhs' as <- <-.
  - now apply deref_after_preview.
Qed.

Lemma C5_witness :
  allocated typed_world (Some O)
  /\ exists w' shown,
       preview ascii_upper (lit "POST") items_url (Some O) None name_x true typed_world
       = (Ret tt, w')
       /\ trace w'
          = trace typed_world
              ++ [Print banner_outgoing; Print (request_line (ascii_upper (lit "POST")) items_url);
                  Print headers_title]
              ++ map (fun kv => Print (preview_header_line kv)) shown
              ++ preview_body None name_x
              ++ [Print separator]
       /\ (truthy name_x = false -> shown = user_headers typed_world (Some O))
       /\ (truthy name_x = true ->
           ~ In content_type (dict_keys (user_headers typed_world (Some O))) ->
           shown = user_headers typed_world (Some O) ++ [(content_type, application_json)])
       /\ (truthy name_x = true ->
           forall a old b,
             user_headers typed_world (Some O) = a ++ (content_type, old) :: b ->
             ~ In content_type (dict_keys a) ->
             shown = a ++ (content_type, application_json) :: b)
       /\ deref w' (Some O) = deref typed_world (Some O).
Proof.
  split; [simpl; lia|].
  apply (@C5_preview_headers ascii_upper (lit "POST") items_url (Some O) None name_x
           typed_world).
  simpl; lia.
Defined.


(** *** C10: falsy bodies in the preview *)

(** C10. The empty object, the empty string, zero, [false] and [null]
    (and the empty array) are falsy. For a falsy JSON body the verbose
    preview lists the user's headers only and has no JSON body block, and
    an empty raw body has no block either; the JSON body is passed to the
    transport call all the same. *)
Theorem C10_falsy_body_preview
    lim upper requests_request method url headers data json_data w :
  allocated w headers ->
  truthy json_data = false ->
  Forall (fun v => truthy v = false)
         [JDict []; JStr []; JInt 0; JBool false; JNull; JList []]
  /\ exists res w' post,
       make_request lim upper requests_request method url headers data json_data true w
       = (res, w')
       /\ trace w'
          = trace w
              ++ [Print banner_outgoing; Print (request_line (upper method) url);
                  Print headers_title]
              ++ map (fun kv => Print (preview_header_line kv)) (user_headers w headers)
              ++ match data with
                 | Some (c :: d) => [Print form_body_title; Print (c :: d)]
                 | Some [] | None => []
                 end
              ++ [Print separator]
              ++ Request (mkRequest method url (deref w headers) data json_data 10) :: post
       /\ forallb is_print post = true.
Proof.
  intros Hal Hf. split; [repeat constructor|].
  destruct (@make_request_trace lim upper requests_request method url headers data json_data
              true w Hal) as (res & post & Hrun & Hpost).
  exists res. eexists. exists post. split; [exact Hrun|]. split; [|exact Hpost].
  simpl. unfold preview_trace, shown_headers, preview_body, request_of. rewrite Hf.
  rewrite <- !app_assoc. simpl.
  destruct data as [[|c d]|]; simpl; rewrite <- ?app_assoc; reflexivity.
Qed.

Lemma C10_witness :
  allocated typed_world (Some O)
  /\ truthy (JDict []) = false
  /\ Forall (fun v => truthy v = false)
            [JDict []; JStr []; JInt 0; JBool false; JNull; JList []]
  /\ exists res w' post,
       make_request py311 ascii_upper (server pong) (lit "POST") items_url (Some O) (Some [])
                    (JDict []) true typed_world
       = (res, w')
       /\ trace w'
          = trace typed_world
              ++ [Print banner_outgoing;
                  Print (request_line (ascii_upper (lit "POST")) items_url);
                  Print headers_title]
              ++ map (fun kv => Print (preview_header_line kv))
                     (user_headers typed_world (Some O))
              ++ match Some [] with
                 | Some (c :: d) => [Print form_body_title; Print (c :: d)]
                 | Some [] | None => []
                 end
              ++ [Print separator]
              ++ Request (mkRequest (lit "POST") items_url (deref typed_world (Some O))
                                    (Some []) (JDict []) 10) :: post
       /\ forallb is_print post = true.
Proof.
  split; [simpl; lia|]. split; [reflexivity|].
  apply (@C10_falsy_body_preview py311 ascii_upper (server pong) (lit "POST") items_url
           (Some O) (Some []) (JDict []) typed_world);
    [simpl; lia | reflexivity].
Defined.

(** [-j '{}' -v]: the body [{}] is sent, the preview shows neither the
    injected header nor a body. *)
Example empty_object_run :
  exists post,
    run py311 ascii_upper (server pong) no_files
        (mkArgs (lit "POST") items_url None None (Some (lit "{}")) None true)
    = (0,
       [Print banner_outgoing;
        Print (lit "> POST http://example.com/items HTTP/1.1");
        Print headers_title;
        Print separator;
        Request (mkRequest (lit "POST") items_url (Some []) None (JDict []) 10)]
         ++ post).
Proof. eexists. vm_compute. reflexivity. Qed.


(** *** C3: header tokens *)

Definition three_tokens : list str := [lit "A:1"; lit "B:2"; lit " A : 3 "].

(** The claim as stated fails: of three tokens with a colon, the entry of
    the third stands before the entry of the second, and the first is
    gone. *)
Lemma C3_counterexample :
  exists w',
    for_each three_tokens (add_header O) fresh_world = (Ret tt, w')
    /\ header_entries three_tokens
       = [(lit "A", lit "1"); (lit "B", lit "2"); (lit "A", lit "3")]
    /\ nth O (heap w') [] = [(lit "A", lit "3"); (lit "B", lit "2")]
    /\ nth O (heap w') [] <> header_entries three_tokens.
Proof.
  eexists. split; [vm_compute; reflexivity|]. split; [reflexivity|].
  split; [reflexivity|]. vm_compute. discriminate.
Qed.

(** C3, amended. For every list of header tokens, on an empty headers
    dict: the loop ends normally; a token without colon only prints its
    warning, in token order; a token with a colon is cut at its first colon
    and gives the entry of the two parts, each stripped of the whitespace
    at its ends; the entries are assigned to the dict one after the other,
    so they stand in token order when their keys are distinct, and a
    repeated key keeps the place of its first token and the value of its
    last. *)
Theorem C3_header_tokens tokens l w :
  (l < length (heap w))%nat ->
  nth l (heap w) [] = [] ->
  exists w',
    for_each tokens (add_header l) w = (Ret tt, w')
    /\ trace w' = trace w ++ header_warnings tokens
    /\ (forall t, ~ In colon t ->
                  header_entry t = None
                  /\ header_warnings [t] = [Print (header_warning t)])
    /\ (forall t a b, t = a ++ colon :: b -> ~ In colon a ->
                      header_entry t = Some (strip a, strip b)
                      /\ header_warnings [t] = [])
    /\ (forall s, exists a b,
           s = a ++ strip s ++ b /\ forallb isspace a = true /\ forallb isspace b = true
           /\ no_space_at_ends (strip s))
    /\ nth l (heap w') [] = dict_of_pairs (header_entries tokens)
    /\ (NoDup (map fst (header_entries tokens)) ->
        nth l (heap w') [] = header_entries tokens)
    /\ dict_keys (nth l (heap w') []) = first_occurrences (map fst (header_entries tokens))
    /\ (forall k, dict_get k (nth l (heap w') []) = dict_get k (rev (header_entries tokens))).
Proof.
  intros Hl Hempty. eexists. split; [now apply add_headers_run|].
  simpl. rewrite nth_update_same by exact Hl. rewrite Hempty.
  split; [reflexivity|]. split; [|split; [|split; [|split; [|split; [|split]]]]].
  - intros t Hn. apply header_entry_none in Hn. simpl. now rewrite Hn.
  - intros t a b Ht Hn.
    assert (E : header_entry t = Some (strip a, strip b))
      by (apply header_entry_some; exists a, b; auto).
    simpl. now rewrite E.
  - apply strip_spec.
  - reflexivity.
  - intros Hnd. rewrite (assign_all_distinct _ (header_entries tokens) []); auto.
  - rewrite <- dict_of_pairs_assign. apply dict_keys_of_pairs.
  - intros k. rewrite dict_get_assign_all. now destruct (dict_get k (rev _)).
Qed.

Lemma C3_witness :
  (O < length (heap fresh_world))%nat
  /\ nth O (heap fresh_world) [] = []
  /\ exists w',
       for_each three_tokens (add_header O) fresh_world = (Ret tt, w')
       /\ trace w' = trace fresh_world ++ header_warnings three_tokens
       /\ (forall t, ~ In colon t ->
                     header_entry t = None
                     /\ header_warnings [t] = [Print (header_warning t)])
       /\ (forall t a b, t = a ++ colon :: b -> ~ In colon a ->
                         header_entry t = Some (strip a, strip b)
                         /\ header_warnings [t] = [])
       /\ (forall s, exists a b,
              s = a ++ strip s ++ b /\ forallb isspace a = true
              /\ forallb isspace b = true /\ no_space_at_ends (strip s))
       /\ nth O (heap w') [] = dict_of_pairs (header_entries three_tokens)
       /\ (NoDup (map fst (header_entries three_tokens)) ->
           nth O (heap w') [] = header_entries three_tokens)
       /\ dict_keys (nth O (heap w') [])
          = first_occurrences (map fst (header_entries three_tokens))
       /\ (forall k, dict_get k (nth O (heap w') [])
                     = dict_get k (rev (header_entries three_tokens))).
Proof.
  split; [simpl; lia|]. split; [reflexivity|].
  apply (@C3_header_tokens three_tokens O fresh_world); [simpl; lia | reflexivity].
Defined.

(** [-H 'X-Token: abc:def' -H nonsense -H ' Accept :text/plain ']: the
    value keeps its own colon, the token without colon is reported, the
    request carries the two entries. *)
Example headers_run :
  exists post,
    run py311 ascii_upper (server pong) no_files
        (mkArgs (lit "GET") ping_url
                (Some [lit "X-Token: abc:def"; lit "nonsense"; lit " Accept :text/plain "])
                None None None false)
    = (0,
       [Print (header_warning (lit "nonsense"));
        Print (sending_line (lit "GET") ping_url);
        Request (mkRequest (lit "GET") ping_url
                   (Some [(lit "X-Token", lit "abc:def"); (lit "Accept", lit "text/plain")])
                   None JNull 10)]
         ++ post).
Proof. eexists. vm_compute. reflexivity. Qed.


(** *** C2: the exit status *)

Lemma header_warnings_prints tokens : forallb is_print (header_warnings tokens) = true.
Proof.
  induction tokens as [|t tokens IH]; simpl; auto.
  rewrite forallb_app, IH. now destruct (header_entry t).
Qed.

Lemma run_unfold lim upper requests_request open_read args :
  run lim upper requests_request open_read args
  = (exit_status (fst (main lim upper requests_request open_read args empty_world)),
     trace (snd (main lim upper requests_request open_read args empty_world))).
Proof. unfold run. now destruct (main _ _ _ _ _). Qed.









(** [-j] with a number of 4301 digits: [int] refuses it, no clause
    catches the [ValueError], and the process ends with status 1, having
    printed nothing and sent nothing. *)
Example long_inline_run :
  run py311 ascii_upper (server pong) no_files
      (mkArgs (lit "POST") items_url None None (Some long_number) None false)
  = (1, []).
Proof. vm_compute. reflexivity. Qed.

(** [-j] with two thousand arrays in one another: the recursion limit
    stops the scanner, and the [RecursionError] ends the process likewise. *)
Example deep_inline_run :
  run py311 ascii_upper (server pong) no_files
      (mkArgs (lit "POST") items_url None None
              (Some (repeat 91%N 2000 ++ repeat 93%N 2000)) None false)
  = (1, []).
Proof. vm_compute. reflexivity. Qed.

(** *** C8: the same JSON text inline and in a file *)


Definition body_path : str := lit "body.json".

(** [{"a":] and [1}] on two lines ending in carriage return and line
    feed. *)
Definition body_text_a1 : str :=
  qlit "{'a':" ++ [13; 10]%N ++ lit " 1}" ++ [13; 10]%N.


(** The same body, inline and from the file with its two-character line
    endings: one value, one request. *)
Example inline_and_file_run :
  exists post,
    run py311 ascii_upper (server pong) (one_file body_path body_text_a1)
        (mkArgs (lit "POST") items_url None None None (Some body_path) false)
    = (0,
       [Print (sending_line (lit "POST") items_url);
        Request (mkRequest (lit "POST") items_url (Some []) None
                           (JDict [(lit "a", JInt 1)]) 10)]
         ++ post)
    /\ run py311 ascii_upper (server pong) (one_file body_path body_text_a1)
           (mkArgs (lit "POST") items_url None None (Some body_text_a1) None false)
       = (0,
          [Print (sending_line (lit "POST") items_url);
           Request (mkRequest (lit "POST") items_url (Some []) None
                              (JDict [(lit "a", JInt 1)]) 10)]
            ++ post).
Proof. eexists. split; vm_compute; reflexivity. Qed.

End Claims.


(* ===================================================================== *)
(** ** Further properties of [main] and [make_request] *)
(* ===================================================================== *)

Section Further.

Open Scope Z_scope.

(** *** What [main] reads and sends *)

Lemma run_by_preflight lim upper requests_request open_read args :
  run lim upper requests_request open_read args
  = match preflight_of lim open_read args with
    | Body v =>
      let '(r, w) :=
        make_request lim upper requests_request (method args) (url args) (Some O)
                     (data args) v (verbose args) (world_at_140 args) in
      (exit_status r, trace w)
    | Fatal m => (1, header_warnings (tokens_of args) ++ [Print m])
    | Unhandled e => (1, header_warnings (tokens_of args))
    end.
Proof.
  rewrite run_unfold, main_run.
  destruct (preflight_of lim open_read args) as [v|m|e] eqn:Hp; try reflexivity.
  - now destruct (make_request _ _ _ _ _ _ _ _ _ _).
  - cbn [fst snd]. now rewrite (unhandled_exit_status lim open_read args e Hp).
Qed.

(** X1. The program consults the file system for one file at most, the
    one named by a non-empty [-f], and only when no non-empty [-j] was
    given: two file systems that agree on that file give the same run. *)
Theorem X1_reads_only_the_named_file lim upper requests_request open_read open_read' args :
  (opt_truthy (json_data args) = false ->
   forall p, file args = Some p -> p <> [] -> open_read p = open_read' p) ->
  run lim upper requests_request open_read args
  = run lim upper requests_request open_read' args.
Proof.
  intros H.
  assert (E : preflight_of lim open_read args = preflight_of lim open_read' args).
  { unfold preflight_of.
    destruct (json_data args) as [[|c s]|]; simpl in H; try reflexivity;
      destruct (file args) as [[|c p]|]; try reflexivity;
      rewrite (H eq_refl (c :: p) eq_refl) by discriminate; reflexivity. }
  now rewrite !run_by_preflight, E.
Qed.

Definition inline_args : Args :=
  mkArgs (lit "POST") items_url None None (Some (qlit "{'name':'x'}"))
         (Some (lit "body.json")) false.

Lemma X1_witness :
  (opt_truthy (json_data inline_args) = false ->
   forall p, file inline_args = Some p -> p <> [] ->
             no_files p = one_file (lit "body.json") (lit "[]") p)
  /\ run py311 ascii_upper (server pong) no_files inline_args
     = run py311 ascii_upper (server pong) (one_file (lit "body.json") (lit "[]")) inline_args.
Proof.
  assert (H : opt_truthy (json_data inline_args) = false ->
              forall p, file inline_args = Some p -> p <> [] ->
                        no_files p = one_file (lit "body.json") (lit "[]") p)
    by (intros H; discriminate H).
  split; [exact H|].
  exact (X1_reads_only_the_named_file py311 ascii_upper (server pong) no_files
           (one_file (lit "body.json") (lit "[]")) inline_args H).
Defined.


Definition get_args : Args :=
  mkArgs (lit "get") ping_url (Some [lit "Accept: */*"]) None None None false.



(** *** Header tokens *)

Lemma lstrip_spaces a x : forallb isspace a = true -> lstrip (a ++ x) = lstrip x.
Proof.
  induction a as [|c a IH]; simpl; auto.
  intros H. apply andb_true_iff in H. destruct H as [Hc Ha]. rewrite Hc. auto.
Qed.

Lemma lstrip_all_spaces a : forallb isspace a = true -> lstrip a = [].
Proof.
  intros H. rewrite <- (app_nil_r a). now rewrite lstrip_spaces.
Qed.

Lemma forallb_rev (f : N -> bool) l : forallb f (rev l) = forallb f l.
Proof.
  induction l as [|c l IH]; simpl; auto.
  rewrite forallb_app, IH. simpl. rewrite andb_true_r. apply andb_comm.
Qed.

(** Whitespace around a text without whitespace at its ends is what
    [strip] removes. *)
Lemma strip_padded a s b :
  forallb isspace a = true -> forallb isspace b = true -> no_space_at_ends s ->
  strip (a ++ s ++ b) = s.
Proof.
  intros Ha Hb [H1 H2]. unfold strip, rstrip.
  rewrite lstrip_spaces by exact Ha.
  destruct s as [|c s'].
  - simpl. rewrite (lstrip_all_spaces b Hb). reflexivity.
  - assert (E : lstrip ((c :: s') ++ b) = (c :: s') ++ b).
    { simpl. now rewrite (H1 c eq_refl). }
    rewrite E, rev_app_distr, lstrip_spaces by (now rewrite forallb_rev).
    rewrite (lstrip_fixed _ H2). apply rev_involutive.
Qed.

Lemma spaces_without_colon a : forallb isspace a = true -> ~ In colon a.
Proof.
  intros H Hin. rewrite forallb_forall in H. apply H in Hin. discriminate.
Qed.

Lemma strip_subset s c : In c (strip s) -> In c s.
Proof.
  intros H. destruct (strip_spec s) as (a & b & E & _).
  rewrite E. apply in_or_app. right. apply in_or_app. now left.
Qed.

(** X3. Whatever whitespace surrounds the key and the value in a
    token, the entry is the bare key and the bare value, as long as the key
    holds no colon; in particular a header line as the response block
    prints it, given back as a [-H] token, yields the header it shows. *)
Theorem X3_padding_is_dropped k v a1 a2 b1 b2 :
  ~ In colon k -> no_space_at_ends k -> no_space_at_ends v ->
  forallb isspace a1 = true -> forallb isspace a2 = true ->
  forallb isspace b1 = true -> forallb isspace b2 = true ->
  header_entry (a1 ++ k ++ a2 ++ colon :: b1 ++ v ++ b2) = Some (k, v)
  /\ header_entry (response_header_line (k, v)) = Some (k, v).
Proof.
  assert (G : forall a1 a2 b1 b2,
             ~ In colon k -> no_space_at_ends k -> no_space_at_ends v ->
             forallb isspace a1 = true -> forallb isspace a2 = true ->
             forallb isspace b1 = true -> forallb isspace b2 = true ->
             header_entry (a1 ++ k ++ a2 ++ colon :: b1 ++ v ++ b2) = Some (k, v)).
  { clear. intros a1 a2 b1 b2 Hk Sk Sv Ha1 Ha2 Hb1 Hb2.
    apply header_entry_some. exists (a1 ++ k ++ a2), (b1 ++ v ++ b2).
    split; [now rewrite <- !app_assoc|]. split; [|split].
    - intros Hin. apply in_app_or in Hin. destruct Hin as [Hin|Hin].
      + now apply (spaces_without_colon a1).
      + apply in_app_or in Hin. destruct Hin as [Hin|Hin]; auto.
        now apply (spaces_without_colon a2).
    - symmetry. now apply strip_padded.
    - symmetry. now apply strip_padded. }
  intros Hk Sk Sv Ha1 Ha2 Hb1 Hb2. split; [now apply G|].
  replace (response_header_line (k, v))
    with ([32; 32]%N ++ k ++ [] ++ colon :: [32]%N ++ v ++ [])
    by (rewrite app_nil_r; reflexivity).
  now apply G.
Qed.

Lemma no_space_at_ends_decide s :
  match s with [] => true | c :: _ => negb (isspace c) end
  && match rev s with [] => true | c :: _ => negb (isspace c) end = true ->
  no_space_at_ends s.
Proof.
  intros H. apply andb_true_iff in H. destruct H as [H1 H2]. split; intros c Hc.
  - destruct s; [discriminate|]. injection Hc as ->. now apply negb_true_iff.
  - destruct (rev s); [discriminate|]. injection Hc as ->. now apply negb_true_iff.
Qed.

Lemma X3_witness :
  ~ In colon (lit "X-Token")
  /\ no_space_at_ends (lit "X-Token")
  /\ no_space_at_ends (lit "abc:def")
  /\ forallb isspace (lit " ") = true /\ forallb isspace [9%N] = true
  /\ forallb isspace [] = true /\ forallb isspace (lit "  ") = true
  /\ header_entry (lit " " ++ lit "X-Token" ++ [9%N] ++ colon :: [] ++ lit "abc:def"
                     ++ lit "  ")
     = Some (lit "X-Token", lit "abc:def")
  /\ header_entry (response_header_line (lit "X-Token", lit "abc:def"))
     = Some (lit "X-Token", lit "abc:def").
Proof.
  assert (Hk : ~ In colon (lit "X-Token"))
    by (vm_compute; intros H; repeat (destruct H as [H|H]; [discriminate H|]); exact H).
  assert (Sk : no_space_at_ends (lit "X-Token"))
    by (apply no_space_at_ends_decide; reflexivity).
  assert (Sv : no_space_at_ends (lit "abc:def"))
    by (apply no_space_at_ends_decide; reflexivity).
  split; [exact Hk|]. split; [exact Sk|]. split; [exact Sv|].
  split; [reflexivity|]. split; [reflexivity|]. split; [reflexivity|].
  split; [reflexivity|].
  exact (X3_padding_is_dropped (lit "X-Token") (lit "abc:def") (lit " ") [9%N] []
           (lit "  ") Hk Sk Sv eq_refl eq_refl eq_refl eq_refl).
Defined.


Lemma in_dict_set (k k0 : str) (v v0 : str) (d : dict str) :
  In (k, v) (dict_set k0 v0 d) -> In (k, v) d \/ (k, v) = (k0, v0).
Proof.
  destruct (dict_set_cases _ k0 v0 d) as [[_ ->]|(a & old & b & -> & _ & ->)];
    intros H; apply in_app_or in H.
  - destruct H as [H|[H|[]]]; auto.
  - destruct H as [H|[H|H]]; auto.
    + left. apply in_or_app. now left.
    + left. apply in_or_app. right. now right.
Qed.

Lemma in_assign_all (k v : str) ps (d : dict str) :
  In (k, v) (assign_all ps d) -> In (k, v) d \/ In (k, v) ps.
Proof.
  revert d; induction ps as [|[k0 v0] ps IH]; intros d H; simpl in *; auto.
  apply IH in H. destruct H as [H|H]; auto.
  apply in_dict_set in H. destruct H as [H|H]; auto.
Qed.

Lemma in_header_entries e tokens :
  In e (header_entries tokens) -> exists t, In t tokens /\ header_entry t = Some e.
Proof.
  unfold header_entries. intros H. apply in_flat_map in H.
  destruct H as (t & Ht & He). exists t. split; auto.
  destruct (header_entry t) as [e'|]; [|contradiction].
  destruct He as [<-|[]]. reflexivity.
Qed.

(** X4. The headers dict that the loop over the [-H] tokens builds,
    from an empty dict, holds each key once; every entry comes from a
    token; no key holds a colon; and neither a key nor a value begins or
    ends with whitespace. *)
Theorem X4_stored_headers tokens l w :
  (l < length (heap w))%nat ->
  nth l (heap w) [] = [] ->
  exists w',
    for_each tokens (add_header l) w = (Ret tt, w')
    /\ NoDup (dict_keys (nth l (heap w') []))
    /\ forall k v,
         In (k, v) (nth l (heap w') []) ->
         (exists t, In t tokens /\ header_entry t = Some (k, v))
         /\ ~ In colon k
         /\ no_space_at_ends k
         /\ no_space_at_ends v.
Proof.
  intros Hl Hempty. eexists. split; [now apply add_headers_run|].
  simpl. rewrite nth_update_same by exact Hl. rewrite Hempty. split.
  - apply assign_all_keys_NoDup. constructor.
  - intros k v Hin. apply in_assign_all in Hin. destruct Hin as [[]|Hin].
    destruct (in_header_entries _ _ Hin) as (t & Ht & He).
    split; [eauto|].
    apply header_entry_some in He. destruct He as (a & b & _ & Ha & -> & ->).
    split; [|split].
    + intros Hc. apply Ha. now apply strip_subset.
    + destruct (strip_spec a) as (_ & _ & _ & _ & _ & H). exact H.
    + destruct (strip_spec b) as (_ & _ & _ & _ & _ & H). exact H.
Qed.

Lemma X4_witness :
  (O < length (heap fresh_world))%nat
  /\ nth O (heap fresh_world) [] = []
  /\ exists w',
       for_each three_tokens (add_header O) fresh_world = (Ret tt, w')
       /\ NoDup (dict_keys (nth O (heap w') []))
       /\ forall k v,
            In (k, v) (nth O (heap w') []) ->
            (exists t, In t three_tokens /\ header_entry t = Some (k, v))
            /\ ~ In colon k
            /\ no_space_at_ends k
            /\ no_space_at_ends v.
Proof.
  split; [simpl; lia|]. split; [reflexivity|].
  exact (X4_stored_headers three_tokens O fresh_world ltac:(simpl; lia) eq_refl).
Defined.

Definition has_colon (t : str) : bool := existsb (N.eqb colon) t.

Lemma has_colon_in t : has_colon t = true <-> In colon t.
Proof.
  unfold has_colon. rewrite existsb_exists. split.
  - intros (c & Hc & E). apply N.eqb_eq in E. now subst.
  - intros H. exists colon. split; [exact H|apply N.eqb_refl].
Qed.

Lemma header_entry_has_colon t :
  header_entry t = None <-> has_colon t = false.
Proof.
  rewrite header_entry_none. rewrite <- has_colon_in.
  destruct (has_colon t); split; congruence.
Qed.

Lemma header_entry_cases t :
  (has_colon t = true /\ exists e, header_entry t = Some e)
  \/ (has_colon t = false /\ header_entry t = None).
Proof.
  destruct (header_entry t) as [e|] eqn:E.
  - left. split; eauto. destruct (has_colon t) eqn:Hc; auto.
    apply header_entry_has_colon in Hc. congruence.
  - right. split; auto. now apply header_entry_has_colon.
Qed.

Lemma header_warnings_filter tokens :
  header_warnings tokens
  = map (fun t => Print (header_warning t)) (filter (fun t => negb (has_colon t)) tokens).
Proof.
  induction tokens as [|t tokens IH]; simpl; auto.
  destruct (header_entry_cases t) as [(Hc & e & E)|(Hc & E)]; rewrite Hc, E; simpl; congruence.
Qed.

Lemma header_entries_filter tokens :
  map Some (header_entries tokens) = map header_entry (filter has_colon tokens).
Proof.
  induction tokens as [|t tokens IH]; simpl; auto.
  destruct (header_entry_cases t) as [(Hc & e & E)|(Hc & E)]; rewrite Hc, E; simpl; congruence.
Qed.

Lemma header_tokens_count tokens :
  (length (header_entries tokens) + length (filter (fun t => negb (has_colon t)) tokens)
   = length tokens)%nat.
Proof.
  induction tokens as [|t tokens IH]; simpl; auto.
  destruct (header_entry_cases t) as [(Hc & e & E)|(Hc & E)]; rewrite Hc, E; simpl; lia.
Qed.

(** X5. The loop over the [-H] tokens treats every token once: a
    token with a colon gives an entry, a token without gives a warning,
    never both and never neither; entries and warnings keep the order of
    the tokens, and the loop prints nothing but the warnings. *)
Theorem X5_every_token_counts tokens l w :
  (l < length (heap w))%nat ->
  exists w',
    for_each tokens (add_header l) w = (Ret tt, w')
    /\ trace w'
       = trace w ++ map (fun t => Print (header_warning t))
                        (filter (fun t => negb (has_colon t)) tokens)
    /\ map Some (header_entries tokens) = map header_entry (filter has_colon tokens)
    /\ nth l (heap w') [] = assign_all (header_entries tokens) (nth l (heap w) [])
    /\ (length (header_entries tokens)
        + length (filter (fun t => negb (has_colon t)) tokens)
        = length tokens)%nat.
Proof.
  intros Hl. eexists. split; [now apply add_headers_run|].
  cbn [trace heap]. rewrite nth_update_same by exact Hl.
  split; [now rewrite header_warnings_filter|].
  split; [apply header_entries_filter|]. split; [reflexivity|].
  apply header_tokens_count.
Qed.

Lemma X5_witness :
  (O < length (heap fresh_world))%nat
  /\ exists w',
       for_each three_tokens (add_header O) fresh_world = (Ret tt, w')
       /\ trace w'
          = trace fresh_world
              ++ map (fun t => Print (header_warning t))
                     (filter (fun t => negb (has_colon t)) three_tokens)
       /\ map Some (header_entries three_tokens)
          = map header_entry (filter has_colon three_tokens)
       /\ nth O (heap w') []
          = assign_all (header_entries three_tokens) (nth O (heap fresh_world) [])
       /\ (length (header_entries three_tokens)
           + length (filter (fun t => negb (has_colon t)) three_tokens)
           = length three_tokens)%nat.
Proof.
  split; [simpl; lia|].
  exact (X5_every_token_counts three_tokens O fresh_world ltac:(simpl; lia)).
Defined.


(** *** Bodies *)

(** X6. A [-j] text that parses to [null] gives no body: the run is
    the run without [-j]. *)
Theorem X6_null_is_no_body
    lim upper requests_request open_read meth target tokens raw vb text :
  loads lim text = Decoded JNull ->
  run lim upper requests_request open_read (mkArgs meth target tokens raw (Some text) None vb)
  = run lim upper requests_request open_read (mkArgs meth target tokens raw None None vb).
Proof.
  intros Hl. rewrite !run_by_preflight. unfold preflight_of. simpl.
  destruct text as [|c t]; [rewrite loads_empty in Hl; discriminate|].
  rewrite Hl. reflexivity.
Qed.

Lemma X6_witness :
  loads py311 (lit " null ") = Decoded JNull
  /\ run py311 ascii_upper (server pong) no_files
         (mkArgs (lit "POST") items_url None None (Some (lit " null ")) None true)
     = run py311 ascii_upper (server pong) no_files
           (mkArgs (lit "POST") items_url None None None None true).
Proof.
  split; [reflexivity|].
  exact (X6_null_is_no_body py311 ascii_upper (server pong) no_files (lit "POST") items_url
           None None true (lit " null ") eq_refl).
Defined.

(** X7. An empty [-j] value and an empty [-f] value are as good as
    absent: the run is the run without the option (so an empty [-j] lets a
    [-f] take effect). *)
Theorem X7_empty_option_is_absent
    lim upper requests_request open_read meth target tokens raw inline path vb :
  run lim upper requests_request open_read (mkArgs meth target tokens raw (Some []) path vb)
  = run lim upper requests_request open_read (mkArgs meth target tokens raw None path vb)
  /\ run lim upper requests_request open_read
         (mkArgs meth target tokens raw inline (Some []) vb)
     = run lim upper requests_request open_read (mkArgs meth target tokens raw inline None vb).
Proof.
  split; rewrite !run_by_preflight; unfold preflight_of; simpl.
  - reflexivity.
  - destruct inline as [[|c s]|]; reflexivity.
Qed.

(** X8. Under the guarantee of the mutually exclusive group ([-d]
    excludes [-j] and [-f]), no request carries both a raw body and a JSON
    body. *)
Theorem X8_one_body_at_most lim upper requests_request open_read args :
  (data args <> None -> json_data args = None /\ file args = None) ->
  forall q,
    In (Request q) (snd (run lim upper requests_request open_read args)) ->
    req_data q = None \/ req_json q = JNull.
Proof.
  intros Hx q Hin. rewrite run_by_preflight in Hin.
  assert (Hnone : forall evs, forallb is_print evs = true -> ~ In (Request q) evs).
  { intros evs H Hq. rewrite forallb_forall in H. apply H in Hq. discriminate. }
  destruct (preflight_of lim open_read args) as [v|m|c] eqn:Hp.
  - destruct (make_request_trace lim upper requests_request (method args) (url args) (Some O)
                (data args) v (verbose args) (world_at_140 args))
      as (res & post & Hrun & Hpost); [simpl; lia|].
    rewrite Hrun in Hin. simpl in Hin.
    apply in_app_or in Hin. destruct Hin as [Hin|Hin];
      [exfalso; revert Hin; apply Hnone, header_warnings_prints|].
    apply in_app_or in Hin. destruct Hin as [Hin|[Hin|Hin]];
      [exfalso; revert Hin; apply Hnone, preview_trace_prints
      | | exfalso; revert Hin; now apply Hnone].
    injection Hin as <-. simpl.
    destruct (data args) as [d|] eqn:Hd; auto. right.
    destruct Hx as [Hj Hf]; [discriminate|].
    unfold preflight_of in Hp. rewrite Hj, Hf in Hp. congruence.
  - simpl in Hin. exfalso. revert Hin. apply Hnone.
    rewrite forallb_app, header_warnings_prints. reflexivity.
  - simpl in Hin. exfalso. revert Hin. apply Hnone, header_warnings_prints.
Qed.

Definition form_args : Args :=
  mkArgs (lit "POST") items_url None (Some (lit "a=1")) None None false.

Lemma X8_witness :
  (data form_args <> None -> json_data form_args = None /\ file form_args = None)
  /\ forall q,
       In (Request q) (snd (run py311 ascii_upper (server pong) no_files form_args)) ->
       req_data q = None \/ req_json q = JNull.
Proof.
  assert (H : data form_args <> None ->
              json_data form_args = None /\ file form_args = None)
    by (intros _; split; reflexivity).
  split; [exact H|].
  exact (X8_one_body_at_most py311 ascii_upper (server pong) no_files form_args H).
Defined.

(** X9. Given both a non-empty raw body and a truthy JSON body,
    [make_request] lists the injected [Content-Type] among the headers of
    the preview but shows the raw body only; the request carries both
    bodies. *)
Theorem X9_raw_body_wins_the_preview
    lim upper requests_request method url headers c d json_data w :
  allocated w headers ->
  truthy json_data = true ->
  exists res w' post,
    make_request lim upper requests_request method url headers (Some (c :: d)) json_data
                 true w
    = (res, w')
    /\ trace w'
       = trace w
           ++ [Print banner_outgoing; Print (request_line (upper method) url);
               Print headers_title]
           ++ map (fun kv => Print (preview_header_line kv))
                  (dict_set content_type application_json (user_headers w headers))
           ++ [Print form_body_title; Print (c :: d); Print separator;
               Request (mkRequest method url (deref w headers) (Some (c :: d))
                                  json_data 10)]
           ++ post
    /\ forallb is_print post = true.
Proof.
  intros Hal Ht.
  destruct (make_request_trace lim upper requests_request method url headers (Some (c :: d))
              json_data true w Hal) as (res & post & Hrun & Hpost).
  exists res. eexists. exists post. split; [exact Hrun|]. split; [|exact Hpost].
  simpl. unfold shown_headers, request_of. rewrite Ht.
  rewrite <- !app_assoc. reflexivity.
Qed.

Lemma X9_witness :
  allocated fresh_world (Some O)
  /\ truthy name_x = true
  /\ exists res w' post,
       make_request py311 ascii_upper (server pong) (lit "POST") items_url (Some O)
                    (Some (97%N :: lit "=1")) name_x true fresh_world
       = (res, w')
       /\ trace w'
          = trace fresh_world
              ++ [Print banner_outgoing;
                  Print (request_line (ascii_upper (lit "POST")) items_url);
                  Print headers_title]
              ++ map (fun kv => Print (preview_header_line kv))
                     (dict_set content_type application_json
                               (user_headers fresh_world (Some O)))
              ++ [Print form_body_title; Print (97%N :: lit "=1"); Print separator;
                  Request (mkRequest (lit "POST") items_url (deref fresh_world (Some O))
                                     (Some (97%N :: lit "=1")) name_x 10)]
              ++ post
       /\ forallb is_print post = true.
Proof.
  split; [simpl; lia|]. split; [reflexivity|].
  exact (X9_raw_body_wins_the_preview py311 ascii_upper (server pong) (lit "POST") items_url
           (Some O) 97%N (lit "=1") name_x fresh_world ltac:(simpl; lia) eq_refl).
Defined.


(** *** The request and what surrounds it *)

(** A response that cannot be rendered because its version code does not
    fit a float: the banner of the response, then the unknown error. *)
Lemma make_request_overflow lim upper requests_request method url headers data json_data
    verbose w r :
  allocated w headers ->
  requests_request (request_of method url w headers data json_data) = inl r ->
  raise_for_status r = None ->
  (forall w', int_div_10 (raw_version r) w'
              = (Raise (new_exc OverflowError (lit "int too large to convert to float")),
                 w')) ->
  make_request lim upper requests_request method url headers data json_data verbose w
  = (Ret tt,
     mkWorld (heap_after_preview w headers json_data verbose)
             (trace w
                ++ preview_trace upper method url (user_headers w headers) data json_data
                                 verbose
                ++ [Request (request_of method url w headers data json_data);
                    Print banner_response;
                    Print (unknown_error_banner
                             ++ lit "int too large to convert to float")])).
Proof.
  intros Hal Hq Hok Hraise. unfold make_request.
  erewrite run_bind by apply preview_run.
  erewrite run_try_caught;
    [ | unfold send_and_render;
        erewrite run_bind;
        [ rewrite Hok;
          erewrite run_bind by reflexivity;
          erewrite run_bind by apply run_print;
          erewrite run_bind_raise by apply Hraise; reflexivity
        | rewrite call_requests_run; rewrite deref_after_preview by exact Hal;
          unfold request_of in Hq; rewrite Hq; reflexivity ]
      | reflexivity ].
  rewrite run_print. simpl. unfold request_of. rewrite <- !app_assoc. reflexivity.
Qed.

(** X10. A failure while the response is rendered is caught like a
    failure of the call: when the version code of a response with a
    success status is too large for a float, [make_request] has already
    announced the response; it then prints the unknown-error banner with
    the message of the [OverflowError], prints neither status line nor
    headers nor body, and returns normally. *)
Theorem X10_rendering_failure_is_reported
    lim upper requests_request method url headers data json_data verbose w r :
  allocated w headers ->
  requests_request (request_of method url w headers data json_data) = inl r ->
  ~ (400 <= status_code r < 600) ->
  int_fits_float (raw_version r) = false ->
  exists w',
    make_request lim upper requests_request method url headers data json_data verbose w
    = (Ret tt, w')
    /\ trace w'
       = trace w
           ++ preview_trace upper method url (user_headers w headers) data json_data
                            verbose
           ++ [Request (request_of method url w headers data json_data);
               Print banner_response;
               Print (unknown_error_banner ++ lit "int too large to convert to float")].
Proof.
  intros Hal Hq Hs Hv. eexists. split.
  - apply make_request_overflow with (r := r); auto.
    + now apply raise_for_status_none.
    + intros w0. unfold int_fits_float in Hv. unfold int_div_10.
      destruct (float_of_Z (raw_version r)); try discriminate. reflexivity.
  - reflexivity.
Qed.

(** A response whose version code is [2 ^ 1024]. *)
Definition odd_version : Response :=
  mkResponse 200 (lit "OK") ping_url [] (lit "{}") (2 ^ 1024).

Lemma X10_witness :
  allocated fresh_world (Some O)
  /\ server odd_version (request_of (lit "GET") ping_url fresh_world (Some O) None JNull)
     = inl odd_version
  /\ ~ (400 <= status_code odd_version < 600)
  /\ int_fits_float (raw_version odd_version) = false
  /\ exists w',
       make_request py311 ascii_upper (server odd_version) (lit "GET") ping_url (Some O) None
                    JNull false fresh_world
       = (Ret tt, w')
       /\ trace w'
          = trace fresh_world
              ++ preview_trace ascii_upper (lit "GET") ping_url
                               (user_headers fresh_world (Some O)) None JNull false
              ++ [Request (request_of (lit "GET") ping_url fresh_world (Some O) None JNull);
                  Print banner_response;
                  Print (unknown_error_banner
                           ++ lit "int too large to convert to float")].
Proof.
  assert (Hs : ~ (400 <= status_code odd_version < 600)) by (simpl; lia).
  split; [simpl; lia|]. split; [reflexivity|]. split; [exact Hs|].
  split; [reflexivity|].
  exact (X10_rendering_failure_is_reported py311 ascii_upper (server odd_version) (lit "GET")
           ping_url (Some O) None JNull false fresh_world odd_version
           ltac:(simpl; lia) eq_refl Hs eq_refl).
Defined.

(** X11. What is not an [Exception] is not caught: when the transport
    raises a [KeyboardInterrupt] or a [SystemExit], [make_request] raises
    it in turn, having printed the preview and sent the request, and
    prints no banner. *)
Theorem X11_interrupt_passes_through
    lim upper requests_request method url headers data json_data verbose w e :
  allocated w headers ->
  requests_request (request_of method url w headers data json_data) = inr e ->
  isinstance e Exception = false ->
  exists w',
    make_request lim upper requests_request method url headers data json_data verbose w
    = (Raise e, w')
    /\ trace w'
       = trace w
           ++ preview_trace upper method url (user_headers w headers) data json_data
                            verbose
           ++ [Request (request_of method url w headers data json_data)].
Proof.
  intros Hal Hq HE. eexists. split; [now apply make_request_escapes|reflexivity].
Qed.

Definition interrupt : exc := mkExc KeyboardInterrupt [] None 0.

Definition interrupted (_ : request) : Response + exc := inr interrupt.

Lemma X11_witness :
  allocated fresh_world (Some O)
  /\ interrupted (request_of (lit "GET") ping_url fresh_world (Some O) None JNull)
     = inr interrupt
  /\ isinstance interrupt Exception = false
  /\ exists w',
       make_request py311 ascii_upper interrupted (lit "GET") ping_url (Some O) None JNull
                    false fresh_world
       = (Raise interrupt, w')
       /\ trace w'
          = trace fresh_world
              ++ preview_trace ascii_upper (lit "GET") ping_url
                               (user_headers fresh_world (Some O)) None JNull false
              ++ [Request (request_of (lit "GET") ping_url fresh_world (Some O) None
                                      JNull)].
Proof.
  split; [simpl; lia|]. split; [reflexivity|]. split; [reflexivity|].
  exact (X11_interrupt_passes_through py311 ascii_upper interrupted (lit "GET") ping_url
           (Some O) None JNull false fresh_world interrupt
           ltac:(simpl; lia) eq_refl eq_refl).
Defined.

(** X12. [make_request] changes no dict object that exists when it
    is called: in verbose mode it makes one new object, the copy the
    preview works on, and otherwise none. *)
Theorem X12_objects_are_left_alone
    lim upper requests_request method url headers data json_data verbose w :
  allocated w headers ->
  exists res w',
    make_request lim upper requests_request method url headers data json_data verbose w
    = (res, w')
    /\ (forall l, (l < length (heap w))%nat -> nth l (heap w') [] = nth l (heap w) [])
    /\ length (heap w') = (length (heap w) + if verbose then 1 else 0)%nat.
Proof.
  intros Hal.
  destruct (make_request_trace lim upper requests_request method url headers data json_data
              verbose w Hal) as (res & post & Hrun & _).
  exists res. eexists. split; [exact Hrun|]. simpl. unfold heap_after_preview.
  destruct verbose; split; intros; rewrite ?length_app; simpl; try lia; auto.
  now apply nth_old.
Qed.

Lemma X12_witness :
  allocated typed_world (Some O)
  /\ exists res w',
       make_request py311 ascii_upper (server pong) (lit "POST") items_url (Some O) None name_x
                    true typed_world
       = (res, w')
       /\ (forall l, (l < length (heap typed_world))%nat ->
                     nth l (heap w') [] = nth l (heap typed_world) [])
       /\ length (heap w') = (length (heap typed_world) + if true then 1 else 0)%nat.
Proof.
  split; [simpl; lia|].
  exact (X12_objects_are_left_alone py311 ascii_upper (server pong) (lit "POST") items_url
           (Some O) None name_x true typed_world ltac:(simpl; lia)).
Defined.


(** What follows the request is decided by the answer of the transport
    alone, under given limits of the interpreter: the result and the lines
    printed after the request are the same whatever the display, the
    verbosity and the state. *)
Lemma make_request_answer lim (a : Response + exc) :
  exists res post,
    forallb is_print post = true
    /\ forall upper requests_request method url headers data json_data verbose w,
         allocated w headers ->
         requests_request (request_of method url w headers data json_data) = a ->
         make_request lim upper requests_request method url headers data json_data verbose w
         = (res,
            mkWorld (heap_after_preview w headers json_data verbose)
                    (trace w
                       ++ preview_trace upper method url (user_headers w headers) data
                                        json_data verbose
                       ++ Request (request_of method url w headers data json_data)
                       :: post)).
Proof.
  destruct a as [r|e].
  - destruct (raise_for_status r) as [e|] eqn:Hr.
    + exists (Ret tt), (error_report e). split; [apply error_report_prints|].
      intros. apply make_request_failure; auto.
      * rewrite H0. exact Hr.
      * apply raise_for_status_exc in Hr. now subst e.
    + destruct (int_div_10_cases (raw_version r)) as [[version Hv]|Hv].
      * eexists (Ret tt), _. split; [|intros; now apply make_request_success with (r := r)].
        simpl. rewrite forallb_app. apply andb_true_iff. split; auto.
        rewrite forallb_forall. intros x Hx. apply in_map_iff in Hx.
        now destruct Hx as (kv & <- & _).
      * eexists (Ret tt), _. split; [|intros; now apply make_request_overflow with (r := r)].
        reflexivity.
  - destruct (isinstance e Exception) eqn:HE.
    + exists (Ret tt), (error_report e). split; [apply error_report_prints|].
      intros. apply make_request_failure; auto. now rewrite H0.
    + exists (Raise e), []. split; auto. intros. now apply make_request_escapes.
Qed.

(** X13. The program asks the network one thing only: the answer to
    the request built from its arguments. Two transports that give that
    request the same answer give the same run, exit status and output; when
    the pre-flight fails, the transport does not matter at all. *)
Theorem X13_one_question_to_the_network
    lim upper requests_request requests_request' open_read args :
  (forall v, preflight_of lim open_read args = Body v ->
     requests_request
       (mkRequest (method args) (url args)
                  (Some (dict_of_pairs (header_entries (tokens_of args))))
                  (data args) v 10)
     = requests_request'
         (mkRequest (method args) (url args)
                    (Some (dict_of_pairs (header_entries (tokens_of args))))
                    (data args) v 10)) ->
  run lim upper requests_request open_read args
  = run lim upper requests_request' open_read args.
Proof.
  intros H. rewrite !run_by_preflight.
  destruct (preflight_of lim open_read args) as [v| |]; try reflexivity.
  specialize (H v eq_refl).
  destruct (make_request_answer lim
              (requests_request
                 (request_of (method args) (url args) (world_at_140 args) (Some O)
                             (data args) v)))
    as (res & post & _ & Hrun).
  rewrite (Hrun upper requests_request), (Hrun upper requests_request');
    [reflexivity | simpl; lia | symmetry; exact H | simpl; lia | reflexivity].
Qed.

(** A transport that answers [pong] to a [GET] and refuses the rest. *)
Definition get_only (q : request) : Response + exc :=
  if str_eqb (req_method q) (lit "get") then inl pong else inr refused.

Lemma X13_witness :
  (forall v, preflight_of py311 no_files get_args = Body v ->
     server pong
       (mkRequest (method get_args) (url get_args)
                  (Some (dict_of_pairs (header_entries (tokens_of get_args))))
                  (data get_args) v 10)
     = get_only
         (mkRequest (method get_args) (url get_args)
                    (Some (dict_of_pairs (header_entries (tokens_of get_args))))
                    (data get_args) v 10))
  /\ run py311 ascii_upper (server pong) no_files get_args
     = run py311 ascii_upper get_only no_files get_args.
Proof.
  assert (H : forall v, preflight_of py311 no_files get_args = Body v ->
     server pong
       (mkRequest (method get_args) (url get_args)
                  (Some (dict_of_pairs (header_entries (tokens_of get_args))))
                  (data get_args) v 10)
     = get_only
         (mkRequest (method get_args) (url get_args)
                    (Some (dict_of_pairs (header_entries (tokens_of get_args))))
                    (data get_args) v 10))
    by (intros v _; reflexivity).
  split; [exact H|].
  exact (X13_one_question_to_the_network py311 ascii_upper (server pong) get_only no_files
           get_args H).
Defined.



End Further.
